(** * script.js: the page glue between the ROM selector and the N64 WASM module

    A shallow embedding of [src/script.js].  The page script is a set of
    closures over the page state (the status element, the console, the
    global [Module] object and a handful of page-level functions) that
    run as event-loop tasks.  The embedding follows that shape:

    - page state is a record [World], threaded through a state-and-exception
      monad [M] for the synchronous code;
    - everything that belongs to the WASM module or the page author
      (entry points, filesystem primitives) is an opaque function over an
      opaque module state [St] that either returns or throws;
    - closures handed to timers, to [Module.onRuntimeInitialized] and to
      [await] are defunctionalised, and one [step] function runs one
      event-loop task.

    What is assumed of the surroundings: the page has the elements the
    script looks up (so [setStatus] cannot fail); reading a property has
    no effect of its own; an external function touches nothing of the page
    but the module's private state.  What it throws is not restricted.  *)

From Stdlib Require Import String Ascii List Bool Arith Lia.
From Stdlib.Strings Require Import Byte.
From Stdlib Require Import DecimalString.
Import ListNotations.
Local Open Scope string_scope.

Set Implicit Arguments.

(** ** Strings *)

(** [url.split('/')]: the segments between separators; never empty. *)
Fixpoint split (sep : ascii) (s : string) : list string :=
  match s with
  | EmptyString => [EmptyString]
  | String c rest =>
      if Ascii.eqb c sep then EmptyString :: split sep rest
      else match split sep rest with
           | seg :: segs => String c seg :: segs
           | [] => [String c EmptyString]
           end
  end.

(** [const filename = url.split('/').pop()] (line 98).  [pop] on the
    array [split] returns is its last element; the default is never used
    because [split] has at least one segment. *)
Definition filename_of (url : string) : string :=
  last (split "/"%char url) EmptyString.

(** [a || b] on strings: the empty string is falsy. *)
Definition or_else (a b : string) : string :=
  if (a =? "")%string then b else a.

(** [romSelector.value || 'roms/mario64.z64'] (line 12), evaluated once when
    the script starts. *)
Definition defaultRomPath (initial_value : string) : string :=
  or_else initial_value "roms/mario64.z64".

(** [romSelector.value || defaultRomPath] (line 151). *)
Definition selected_url (value initial_value : string) : string :=
  or_else value (defaultRomPath initial_value).

(** Does the string end with the character? *)
Fixpoint ends_with (c : ascii) (s : string) : bool :=
  match s with
  | EmptyString => false
  | String d EmptyString => Ascii.eqb d c
  | String _ rest => ends_with c rest
  end.

(** Number-to-string conversion in ['HTTP ' + res.status]. *)
Definition decimal (n : nat) : string := NilZero.string_of_uint (Nat.to_uint n).

(** ** Thrown values

    JavaScript lets any value be thrown.  The handlers of this script read
    [.message] off what they catch and concatenate the result, and both
    steps can themselves raise.  A thrown value is therefore one of:

    - an Error-like object with a [name] and a [message];
    - some other value without a [message], known by its string conversion
      (a string, a number, a plain object);
    - a value without a [message] whose string conversion raises (a symbol,
      an object without [toString] and [valueOf]);
    - [null] or [undefined], on which the read of [.message] raises. *)
Inductive thrown : Type :=
  | ErrorObj (name message : string)
  | Other (text : string)
  | Unprintable
  | NullOrUndefined.

(** Errors the engine itself raises; their text differs between engines. *)
Inductive fault : Type :=
  | ModuleUndeclared      (* ReferenceError: no binding called Module *)
  | ModuleNullish         (* TypeError: property read on undefined or null *)
  | NotCallable           (* TypeError: call of a value that is no function *)
  | MessageOfNullish      (* TypeError: [.message] read off null or undefined *)
  | NotConvertible.       (* TypeError: the value has no string conversion *)

(** [Error.prototype.toString], by which an error object is converted to
    a string. *)
Definition error_toString (name message : string) : string :=
  if (message =? "")%string then name
  else if (name =? "")%string then message
  else name ++ ": " ++ message.

(** [(err.message || err)] inside a concatenation (lines 93, 106): the
    read of [.message] comes first; a missing or empty message makes way
    for the value itself, which is then converted to a string. *)
Definition message_or_self (e : thrown) : fault + string :=
  match e with
  | ErrorObj n m => inr (if (m =? "")%string then error_toString n m else m)
  | Other t => inr t
  | Unprintable => inl NotConvertible
  | NullOrUndefined => inl MessageOfNullish
  end.

(** [e.message] inside a concatenation (lines 126, 145): a value without
    a message reads as [undefined]. *)
Definition message_text (e : thrown) : fault + string :=
  match e with
  | ErrorObj _ m => inr m
  | Other _ | Unprintable => inr "undefined"
  | NullOrUndefined => inl MessageOfNullish
  end.

(** ** Values handed to external functions *)

Inductive jsarg : Type :=
  | AStr (s : string)
  | ABytes (u8 : list byte)
  | ABool (b : bool)
  | AList (l : list string).

(** The external functions the script may call. *)
Inductive target : Type :=
  | Tfetch
  | TFS_unlink
  | TFS_createDataFile
  | Twindow_startEmulator
  | TcallMain
  | Twindow_run
  | T_save_state
  | Twindow_save_state
  | T_load_state
  | Twindow_load_state
  | TonRuntimeInitialized.

Definition target_eqb (a b : target) : bool :=
  match a, b with
  | Tfetch, Tfetch | TFS_unlink, TFS_unlink
  | TFS_createDataFile, TFS_createDataFile
  | Twindow_startEmulator, Twindow_startEmulator
  | TcallMain, TcallMain | Twindow_run, Twindow_run
  | T_save_state, T_save_state | Twindow_save_state, Twindow_save_state
  | T_load_state, T_load_state | Twindow_load_state, Twindow_load_state
  | TonRuntimeInitialized, TonRuntimeInitialized => true
  | _, _ => false
  end.

(** One invocation of an external function, as it was made. *)
Record call : Type := Call { c_target : target; c_args : list jsarg }.

(** The async arrow function of line 100, closed over [url] and [filename]. *)
Record callback : Type := Callback { cb_url : string; cb_filename : string }.

Definition callback_eqb (a b : callback) : bool :=
  (cb_url a =? cb_url b)%string && (cb_filename a =? cb_filename b)%string.

(** Console output. *)
Inductive centry : Type :=
  | ConsoleLog (tag text : string)
  | ConsoleWarn (text : string)
  | ConsoleError (label : option string) (e : thrown).

(** Pending timers: [setTimeout(cb, d)] and the polling [setInterval]. *)
Inductive timer_kind : Type :=
  | OneShot (cb : callback)
  | Poll (cb : callback).

Record timer : Type := Timer { t_id : nat; t_delay : nat; t_kind : timer_kind }.

(** What [await fetch(url)] followed by [await res.arrayBuffer()] yields. *)
Inductive fetch_result : Type :=
  | NetworkFailure (e : thrown)
  | Response (ok : bool) (status : nat) (arrayBuffer : thrown + list byte).

(** Completion of a synchronous block, or settlement of an async function. *)
Inductive completion (A : Type) : Type :=
  | Normal (a : A)
  | Throw (e : thrown).
Arguments Normal {A} a.
Arguments Throw {A} e.

(** ** More on strings and the page's own state *)

(** [parts.join('/')], the inverse of [split]. *)
Fixpoint join (sep : ascii) (l : list string) : string :=
  match l with
  | [] => EmptyString
  | [seg] => seg
  | seg :: rest => seg ++ String sep (join sep rest)
  end.

(** Does the character occur in the string? *)
Fixpoint has_char (c : ascii) (s : string) : bool :=
  match s with
  | EmptyString => false
  | String d rest => Ascii.eqb d c || has_char c rest
  end.

(** [classList.toggle(c)] on the class list of [document.body] (a token
    list without repeats): the class is removed when present and appended
    when absent. *)
Definition toggle (c : string) (classes : list string) : list string :=
  if existsb (String.eqb c) classes
  then filter (fun d => negb (d =? c)%string) classes
  else (classes ++ [c])%list.

(** The click handler of [mobileBtn] (lines 155-157). *)
Definition on_mobile_click (classes : list string) : list string :=
  toggle "mobile-mode" classes.

(** The text of the last [console.log('[N64]', s)] in a console, or
    [initial] when there is none. *)
Definition last_status (initial : string) (c : list centry) : string :=
  fold_left
    (fun acc e =>
       match e with
       | ConsoleLog tag text => if (tag =? "[N64]")%string then text else acc
       | _ => acc
       end)
    c initial.

(** The launch candidates among the external functions. *)
Definition is_launch (t : target) : bool :=
  match t with
  | Twindow_startEmulator | TcallMain | Twindow_run => true
  | _ => false
  end.

(** ** The state-and-exception monad of synchronous code *)

Definition M (W A : Type) : Type := W -> W * completion A.

Definition ret {W A} (a : A) : M W A := fun w => (w, Normal a).

Definition throw {W A} (e : thrown) : M W A := fun w => (w, Throw e).

Definition bind {W A B} (m : M W A) (k : A -> M W B) : M W B :=
  fun w =>
    match m w with
    | (w1, Normal a) => k a w1
    | (w1, Throw e) => (w1, Throw e)
    end.

(** [try { body } catch (e) { handler }] *)
Definition try_catch {W A} (body : M W A) (handler : thrown -> M W A) : M W A :=
  fun w =>
    match body w with
    | (w1, Normal a) => (w1, Normal a)
    | (w1, Throw e) => handler e w1
    end.

Definition get {W} : M W W := fun w => (w, Normal w).

Definition modify {W} (f : W -> W) : M W unit := fun w => (f w, Normal tt).

Declare Scope js_scope.
Delimit Scope js_scope with js.
Notation "x <- m ;; k" := (bind m (fun x => k))
  (at level 61, m at next level, right associativity) : js_scope.
Notation "m ;; k" := (bind m (fun _ => k))
  (at level 61, right associativity) : js_scope.

Section Model.

Variable St : Type.
Variable engine_text : fault -> string.

(** An external function: it sees its arguments and the module's private
    state, may change that state, and returns ([None]) or throws. *)
Definition extfun : Type := list jsarg -> St -> St * option thrown.

(** What a property read can give, as far as the script tells values apart
    (truthiness and [typeof v === 'function']). *)
Inductive jsval : Type :=
  | VUndefined
  | VOther (truthy : bool)
  | VFun (f : extfun).

Definition truthy (v : jsval) : bool :=
  match v with
  | VUndefined => false
  | VOther b => b
  | VFun _ => true
  end.

Definition is_function (v : jsval) : bool :=
  match v with
  | VFun _ => true
  | _ => false
  end.

(** [Module.onRuntimeInitialized]: a value of the module's own, or the
    wrapper the gate installs (lines 26-29), which remembers the previous
    slot content and the callback. *)
Inductive ready_slot : Type :=
  | SlotVal (v : jsval)
  | SlotChained (prev : ready_slot) (cb : callback).

Definition slot_truthy (s : ready_slot) : bool :=
  match s with
  | SlotVal v => truthy v
  | SlotChained _ _ => true
  end.

Record ModuleObj : Type := MkModule {
  onRuntimeInitialized : ready_slot;
  _main : jsval;
  FS_createDataFile : jsval;
  FS_unlink : jsval;
  callMain : jsval;
  _save_state : jsval;
  _load_state : jsval
}.

(** The global [Module]: no such binding, a binding holding [undefined] or
    [null], or the module object. *)
Inductive binding : Type :=
  | Undeclared
  | Nullish
  | Object (m : ModuleObj).

Record World : Type := MkWorld {
  window_Module : binding;
  window_startEmulator : jsval;
  window_run : jsval;
  window_save_state : jsval;
  window_load_state : jsval;
  statusText : string;            (* statusEl.textContent *)
  console : list centry;          (* oldest first *)
  calls : list call;              (* external invocations, oldest first *)
  mstate : St;                    (* the module's private state *)
  timers : list timer;
  next_timer : nat;
  fetching : list callback;       (* callbacks suspended at [await fetch] *)
  uncaught : list thrown          (* what reached the event loop unhandled *)
}.

(** *** Field updates *)

Definition with_Module (b : binding) (w : World) : World :=
  MkWorld b (window_startEmulator w) (window_run w) (window_save_state w)
    (window_load_state w) (statusText w) (console w) (calls w) (mstate w)
    (timers w) (next_timer w) (fetching w) (uncaught w).

Definition with_status (s : string) (w : World) : World :=
  MkWorld (window_Module w) (window_startEmulator w) (window_run w)
    (window_save_state w) (window_load_state w) s (console w) (calls w)
    (mstate w) (timers w) (next_timer w) (fetching w) (uncaught w).

Definition with_console (c : list centry) (w : World) : World :=
  MkWorld (window_Module w) (window_startEmulator w) (window_run w)
    (window_save_state w) (window_load_state w) (statusText w) c (calls w)
    (mstate w) (timers w) (next_timer w) (fetching w) (uncaught w).

Definition with_calls (c : list call) (s : St) (w : World) : World :=
  MkWorld (window_Module w) (window_startEmulator w) (window_run w)
    (window_save_state w) (window_load_state w) (statusText w) (console w) c
    s (timers w) (next_timer w) (fetching w) (uncaught w).

Definition with_timers (t : list timer) (n : nat) (w : World) : World :=
  MkWorld (window_Module w) (window_startEmulator w) (window_run w)
    (window_save_state w) (window_load_state w) (statusText w) (console w)
    (calls w) (mstate w) t n (fetching w) (uncaught w).

Definition with_fetching (f : list callback) (w : World) : World :=
  MkWorld (window_Module w) (window_startEmulator w) (window_run w)
    (window_save_state w) (window_load_state w) (statusText w) (console w)
    (calls w) (mstate w) (timers w) (next_timer w) f (uncaught w).

Definition with_uncaught (u : list thrown) (w : World) : World :=
  MkWorld (window_Module w) (window_startEmulator w) (window_run w)
    (window_save_state w) (window_load_state w) (statusText w) (console w)
    (calls w) (mstate w) (timers w) (next_timer w) (fetching w) u.

Definition with_onRuntimeInitialized (s : ready_slot) (m : ModuleObj) : ModuleObj :=
  MkModule s (_main m) (FS_createDataFile m) (FS_unlink m) (callMain m)
    (_save_state m) (_load_state m).

(** *** Primitive effects *)

Definition log (c : centry) : M World unit :=
  modify (fun w => with_console (console w ++ [c]) w).

(** [Module.x] with [Module] the bare identifier: the read raises when
    there is no module object to read from. *)
Definition module_object : M World ModuleObj :=
  fun w =>
    match window_Module w with
    | Object m => (w, Normal m)
    | Undeclared =>
        (w, Throw (ErrorObj "ReferenceError" (engine_text ModuleUndeclared)))
    | Nullish =>
        (w, Throw (ErrorObj "TypeError" (engine_text ModuleNullish)))
    end.

(** [v(args)]: a function is invoked, which is recorded, and may throw;
    anything else is not callable. *)
Definition call_value (t : target) (v : jsval) (args : list jsarg) : M World unit :=
  fun w =>
    match v with
    | VFun f =>
        let r := f args (mstate w) in
        let w1 := with_calls (calls w ++ [Call t args]) (fst r) w in
        match snd r with
        | None => (w1, Normal tt)
        | Some e => (w1, Throw e)
        end
    | _ => (w, Throw (ErrorObj "TypeError" (engine_text NotCallable)))
    end.

(** The operand of a concatenation, evaluated before anything is done
    with the result: a text, or the engine's TypeError. *)
Definition text_of (r : fault + string) : M World string :=
  match r with
  | inr s => ret s
  | inl f => throw (ErrorObj "TypeError" (engine_text f))
  end.

(** [setTimeout(f, d)] and [setInterval(f, d)]: the new timer gets the
    next free id. *)
Definition add_timer (k : timer_kind) (d : nat) : M World unit :=
  modify (fun w =>
    with_timers (timers w ++ [Timer (next_timer w) d k]) (S (next_timer w)) w).

Definition clear_timer (id : nat) : M World unit :=
  modify (fun w =>
    with_timers (filter (fun t => negb (Nat.eqb (t_id t) id)) (timers w))
      (next_timer w) w).

(** ** The functions of script.js *)

Local Open Scope js_scope.

(** Lines 15-18. *)
Definition setStatus (s : string) : M World unit :=
  modify (with_status s) ;;
  log (ConsoleLog "[N64]" s).

(** Lines 22-42.  The gate only registers [cb]; it returns nothing. *)
Definition whenModuleReady (cb : callback) : M World unit :=
  w <- get ;;
  match window_Module w with
  | Object m =>
      if slot_truthy (onRuntimeInitialized m) then
        modify (with_Module
          (Object (with_onRuntimeInitialized
                     (SlotChained (onRuntimeInitialized m) cb) m)))
      else if truthy (_main m) then add_timer (OneShot cb) 50
      else add_timer (Poll cb) 50
  | _ => add_timer (Poll cb) 50
  end.

(** The interval body of lines 35-40; [t] is the interval's own id. *)
Definition poll_tick (t : nat) (cb : callback) : M World unit :=
  w <- get ;;
  match window_Module w with
  | Object m =>
      if slot_truthy (onRuntimeInitialized m) || truthy (_main m) then
        clear_timer t ;; add_timer (OneShot cb) 10
      else ret tt
  | _ => ret tt
  end.

(** [mountRomToFS] up to its first [await] (lines 46-47): the status line,
    and the request goes out. *)
Definition mountRomToFS_begin (url : string) : M World unit :=
  setStatus ("Fetching ROM: " ++ url) ;;
  modify (fun w => with_calls (calls w ++ [Call Tfetch [AStr url]]) (mstate w) w).

(** [try { Module.FS_unlink('/' + filename); } catch(e){}] (line 58). *)
Definition remove_existing (filename : string) : M World unit :=
  try_catch
    (m <- module_object ;;
     call_value TFS_unlink (FS_unlink m) [AStr ("/" ++ filename)])
    (fun _ => ret tt).

(** The arguments of line 59. *)
Definition inject_args (filename : string) (u8 : list byte) : list jsarg :=
  [AStr "/"; AStr filename; ABytes u8; ABool true; ABool true].

(** [mountRomToFS] from the response on (lines 48-65).  Nothing of the
    page is read between the two awaits, so they are resumed as one. *)
Definition mountRomToFS_resume (r : fetch_result) (filename : string)
  : M World string :=
  match r with
  | NetworkFailure e => throw e
  | Response ok status arrayBuffer =>
      if negb ok then throw (ErrorObj "Error" ("HTTP " ++ decimal status))
      else
        match arrayBuffer with
        | inl e => throw e
        | inr u8 =>
            w <- get ;;
            match window_Module w with
            | Object m =>
                if negb (truthy (FS_createDataFile m)) then
                  throw (ErrorObj "Error"
                    "Emscripten FS not available (Module.FS_createDataFile missing)")
                else
                  try_catch
                    (remove_existing filename ;;
                     call_value TFS_createDataFile (FS_createDataFile m)
                       (inject_args filename u8) ;;
                     setStatus ("ROM mounted: " ++ filename) ;;
                     ret filename)
                    (fun e => log (ConsoleError None e) ;; throw e)
            | _ =>
                throw (ErrorObj "Error"
                  "Emscripten FS not available (Module.FS_createDataFile missing)")
            end
        end
  end.

(** Lines 71-95. *)
Definition startEmulator (filename : string) : M World unit :=
  setStatus ("Starting emulator: " ++ filename) ;;
  try_catch
    (w <- get ;;
     if is_function (window_startEmulator w) then
       call_value Twindow_startEmulator (window_startEmulator w)
         [AStr ("/" ++ filename)]
     else
       m <- module_object ;;
       if is_function (callMain m) then
         call_value TcallMain (callMain m) [AList ["/" ++ filename]]
       else if is_function (window_run w) then
         call_value Twindow_run (window_run w) [AStr ("/" ++ filename)]
       else
         log (ConsoleWarn
           "No obvious start function found — you may need to adapt startEmulator() in script.js") ;;
         setStatus "Emulator start function not found")
    (fun err =>
       log (ConsoleError (Some "Failed to start emulator:") err) ;;
       msg <- text_of (message_or_self err) ;;
       setStatus ("Start failed: " ++ msg)).

(** The async arrow function of lines 100-103, first up to its [await],
    then from the settled fetch on. *)
Definition callback_begin (cb : callback) : M World unit :=
  mountRomToFS_begin (cb_url cb) ;;
  modify (fun w => with_fetching (fetching w ++ [cb]) w).

Definition callback_resume (cb : callback) (r : fetch_result) : M World unit :=
  mounted <- mountRomToFS_resume r (cb_filename cb) ;;
  startEmulator mounted.

(** The wrapper of lines 26-29, or whatever else sits in the slot, called. *)
Fixpoint invoke_ready (s : ready_slot) : M World unit :=
  match s with
  | SlotVal v => call_value TonRuntimeInitialized v []
  | SlotChained prev cb =>
      try_catch (invoke_ready prev) (fun _ => ret tt) ;;
      callback_begin cb
  end.

(** Lines 97-108.  [whenModuleReady] returns [undefined], so the [await]
    has nothing to wait for and the [try] block is left at once. *)
Definition loadAndStartRom (url : string) : M World unit :=
  let filename := filename_of url in
  try_catch
    (whenModuleReady (Callback url filename))
    (fun err =>
       log (ConsoleError None err) ;;
       msg <- text_of (message_or_self err) ;;
       setStatus ("Error loading ROM: " ++ msg)).

(** Lines 111-128. *)
Definition saveState : M World unit :=
  setStatus "Attempting to save state..." ;;
  try_catch
    (m <- module_object ;;
     if is_function (_save_state m) then
       call_value T_save_state (_save_state m) [] ;;
       setStatus "Saved state via _save_state()"
     else
       w <- get ;;
       if is_function (window_save_state w) then
         call_value Twindow_save_state (window_save_state w) [] ;;
         setStatus "Saved state via save_state()"
       else
         setStatus "No save-state API found in WASM" ;;
         log (ConsoleWarn "No save function found (module exports):"))
    (fun e =>
       log (ConsoleError None e) ;;
       msg <- text_of (message_text e) ;;
       setStatus ("Save failed: " ++ msg)).

(** Lines 130-147. *)
Definition loadState : M World unit :=
  setStatus "Attempting to load state..." ;;
  try_catch
    (m <- module_object ;;
     if is_function (_load_state m) then
       call_value T_load_state (_load_state m) [] ;;
       setStatus "Loaded state via _load_state()"
     else
       w <- get ;;
       if is_function (window_load_state w) then
         call_value Twindow_load_state (window_load_state w) [] ;;
         setStatus "Loaded state via load_state()"
       else
         setStatus "No load-state API found in WASM" ;;
         log (ConsoleWarn "No load function found (module exports):"))
    (fun e =>
       log (ConsoleError None e) ;;
       msg <- text_of (message_text e) ;;
       setStatus ("Load state failed: " ++ msg)).

(** [mountRomToFS] run from call to settlement with no other task in
    between (lines 45-66). *)
Definition mountRomToFS (url filename : string) (r : fetch_result)
  : M World string :=
  mountRomToFS_begin url ;;
  mountRomToFS_resume r filename.

(** ** The event loop

    One event is one task: a click or the load timer calling into the
    script, a timer firing, the module runtime calling its
    [onRuntimeInitialized] slot, a fetch settling, or the wrapper script
    (re)defining the global [Module].  The mobile-layout button only
    toggles a style class and is left out. *)
Inductive event : Type :=
  | LoadRom (url : string)
  | SaveClick
  | LoadStateClick
  | TimerFires (id : nat)
  | RuntimeInitialized
  | FetchSettles (i : nat) (r : fetch_result)
  | ScriptDefinesModule (b : binding).

(** Events that run code of script.js or of the module, as opposed to the
    page environment replacing [Module]. *)
Definition program_event (ev : event) : bool :=
  match ev with
  | ScriptDefinesModule _ => false
  | _ => true
  end.

(** A task whose completion nobody observes: every call site of the script
    drops the value it gets back (the click handlers, [setTimeout(cb, d)],
    [cb()] in the wrapper), so a throw or a rejection ends up unhandled. *)
Definition run_task (m : M World unit) (w : World) : World :=
  match m w with
  | (w1, Normal _) => w1
  | (w1, Throw e) => with_uncaught (uncaught w1 ++ [e]) w1
  end.

Definition remove_nth (A : Type) (i : nat) (l : list A) : list A :=
  firstn i l ++ skipn (S i) l.

Definition step (ev : event) (w : World) : World :=
  match ev with
  | LoadRom url => run_task (loadAndStartRom url) w
  | SaveClick => run_task saveState w
  | LoadStateClick => run_task loadState w
  | TimerFires id =>
      match find (fun t => Nat.eqb (t_id t) id) (timers w) with
      | Some (Timer _ _ (OneShot cb)) =>
          run_task (clear_timer id ;; callback_begin cb) w
      | Some (Timer _ _ (Poll cb)) => run_task (poll_tick id cb) w
      | None => w
      end
  | RuntimeInitialized =>
      match window_Module w with
      | Object m =>
          if slot_truthy (onRuntimeInitialized m)
          then run_task (invoke_ready (onRuntimeInitialized m)) w
          else w
      | _ => w
      end
  | FetchSettles i r =>
      match nth_error (fetching w) i with
      | Some cb =>
          run_task (callback_resume cb r)
            (with_fetching (remove_nth i (fetching w)) w)
      | None => w
      end
  | ScriptDefinesModule b => with_Module b w
  end.

Definition run (evs : list event) (w : World) : World :=
  fold_left (fun w ev => step ev w) evs w.

(** ** Observations *)

(** The invocations of one external function among some calls. *)
Definition invocations (t : target) (l : list call) : list call :=
  filter (fun c => target_eqb (c_target c) t) l.

(** The callback has been entered: its request went out. *)
Definition signalled (cb : callback) (w : World) : bool :=
  existsb
    (fun c =>
       match c with
       | Call Tfetch [AStr u] => (u =? cb_url cb)%string
       | _ => false
       end)
    (calls w).

(** The callback sits in a polling interval. *)
Definition polling_for (cb : callback) (w : World) : bool :=
  existsb
    (fun t =>
       match t_kind t with
       | Poll c => callback_eqb c cb
       | OneShot _ => false
       end)
    (timers w).

(** The callback sits in a wrapper on the module's slot: only the module
    runtime calling the slot will enter it. *)
Fixpoint slot_holds (cb : callback) (s : ready_slot) : bool :=
  match s with
  | SlotVal _ => false
  | SlotChained prev c => callback_eqb c cb || slot_holds cb prev
  end.

Definition awaits_runtime (cb : callback) (w : World) : bool :=
  match window_Module w with
  | Object m => slot_holds cb (onRuntimeInitialized m)
  | _ => false
  end.

(** No timer carries an id the next timer could get. *)
Definition timers_fresh (w : World) : bool :=
  forallb (fun t => Nat.ltb (t_id t) (next_timer w)) (timers w).

(** The fault a read of [Module.x] raises, if any. *)
Definition module_fault (w : World) : option fault :=
  match window_Module w with
  | Undeclared => Some ModuleUndeclared
  | Nullish => Some ModuleNullish
  | Object _ => None
  end.

(** ** Pages on which the gate is studied *)

(** The module shows its entry point and has nothing in its
    [onRuntimeInitialized] slot: the page line 30 tests for. *)
Definition entry_point_only (m : ModuleObj) : Prop :=
  slot_truthy (onRuntimeInitialized m) = false /\ truthy (_main m) = true.

Definition settled (w : World) : Prop :=
  exists m, window_Module w = Object m /\ entry_point_only m.

(** Nothing sits in the [onRuntimeInitialized] slot of the binding. *)
Definition slot_free (b : binding) : bool :=
  match b with
  | Object m => negb (slot_truthy (onRuntimeInitialized m))
  | _ => true
  end.

(** The requests the script has sent so far. *)
Definition fetches (w : World) : list call := invocations Tfetch (calls w).

(** No [setTimeout] is pending. *)
Definition no_oneshot (w : World) : bool :=
  forallb
    (fun t =>
       match t_kind t with
       | OneShot _ => false
       | Poll _ => true
       end)
    (timers w).

(** The module object of the binding shows its entry point [_main]. *)
Definition main_there (b : binding) : bool :=
  match b with
  | Object m => truthy (_main m)
  | _ => false
  end.

(** The events of a page on which nothing is ever put into the slot and
    [_main], once there, stays: all tasks of the script and the module,
    and the wrapper script defining, filling in or replacing [Module] with
    an empty slot and without taking [_main] away. *)
Definition admissible (w : World) (ev : event) : bool :=
  match ev with
  | ScriptDefinesModule b =>
      slot_free b && (negb (main_there (window_Module w)) || main_there b)
  | _ => true
  end.

Fixpoint admissible_run (evs : list event) (w : World) : bool :=
  match evs with
  | [] => true
  | ev :: rest => admissible w ev && admissible_run rest (step ev w)
  end.

(** ** Properties of the page that code keeps

    [preserves P c]: running [c] keeps the property [P] of the page,
    however [c] completes. *)
Definition preserves (A : Type) (P : World -> Prop) (c : M World A) : Prop :=
  forall w, P w -> P (fst (c w)).

(** A property that only looks at the [Module] binding, the timers and
    the requests sent. *)
Definition framed (P : World -> Prop) : Prop :=
  forall w w',
    window_Module w' = window_Module w ->
    timers w' = timers w ->
    next_timer w' = next_timer w ->
    fetches w' = fetches w ->
    P w -> P w'.

Definition module_is (b : binding) (w : World) : Prop := window_Module w = b.

Definition fresh (w : World) : Prop := timers_fresh w = true.

(** What holds of every page reached from a fresh one by admissible
    events: the slot is free, timer ids are fresh, and either no callback
    is on its way (no one-shot timer, no request sent) or the module shows
    its entry point. *)
Definition gate_invariant (w : World) : Prop :=
  slot_free (window_Module w) = true /\
  fresh w /\
  ((no_oneshot w = true /\ fetches w = []) \/ settled w).

(** ** The operations behind the buttons and the launcher, as one family *)

Inductive operation : Type :=
  | OpStart (filename : string)
  | OpSave
  | OpLoadState.




(** The status each operation writes before it tries anything. *)
Definition attempt_status (op : operation) : string :=
  match op with
  | OpStart filename => "Starting emulator: " ++ filename
  | OpSave => "Attempting to save state..."
  | OpLoadState => "Attempting to load state..."
  end.



(** The status line shows the last text logged under the tag of
    [setStatus]; [initial] is what the page showed before any. *)
Definition mirrors (initial : string) (w : World) : Prop :=
  statusText w = last_status initial (console w).

(** ** Runs of loads *)

(** The callback [loadAndStartRom(url)] hands to the gate. *)
Definition pipeline_callback (url : string) : callback :=
  Callback url (filename_of url).

(** The slot after the gate has chained the callbacks onto it, first to
    last. *)
Definition chained (s : ready_slot) (cbs : list callback) : ready_slot :=
  fold_left (fun s cb => SlotChained s cb) cbs s.

(** The requests entering the callbacks sends, in order. *)
Definition requests (cbs : list callback) : list call :=
  map (fun cb => Call Tfetch [AStr (cb_url cb)]) cbs.

(** The one-shot timers a run of gate calls arms, counting ids from [n]. *)
Fixpoint armed (n : nat) (cbs : list callback) : list timer :=
  match cbs with
  | [] => []
  | cb :: rest => Timer n 50 (OneShot cb) :: armed (S n) rest
  end.




(** The module has not shown itself yet: the test of line 36 fails. *)
Definition module_not_ready (w : World) : bool :=
  match window_Module w with
  | Object m => negb (slot_truthy (onRuntimeInitialized m) || truthy (_main m))
  | _ => true
  end.


End Model.

Arguments VUndefined {St}.
Arguments VOther {St} truthy.
Arguments Undeclared {St}.
Arguments Nullish {St}.
Arguments LoadRom {St} url.
Arguments SaveClick {St}.
Arguments LoadStateClick {St}.
Arguments TimerFires {St} id.
Arguments RuntimeInitialized {St}.
Arguments FetchSettles {St} i r.

(** ** A sample page

    A module whose private state is a table of files, with filesystem
    primitives in the manner of Emscripten's (creating over an existing
    path throws, unlinking a missing one throws), used to run the model on
    concrete pages. *)

Definition files : Type := list (string * list byte).

Definition has_file (path : string) (fs : files) : bool :=
  existsb (fun f => (fst f =? path)%string) fs.

Definition demo_createDataFile : extfun files :=
  fun args fs =>
    match args with
    | [AStr dir; AStr name; ABytes u8; ABool _; ABool _] =>
        if has_file (dir ++ name) fs
        then (fs, Some (ErrorObj "ErrnoError" "FS error"))
        else ((dir ++ name, u8) :: fs, None)
    | _ => (fs, Some (ErrorObj "TypeError" "bad arguments"))
    end.

Definition demo_unlink : extfun files :=
  fun args fs =>
    match args with
    | [AStr path] =>
        if has_file path fs
        then (filter (fun f => negb (fst f =? path)%string) fs, None)
        else (fs, Some (ErrorObj "ErrnoError" "FS error"))
    | _ => (fs, Some (ErrorObj "TypeError" "bad arguments"))
    end.

Definition returns : extfun files := fun _ fs => (fs, None).

Definition throws (e : thrown) : extfun files := fun _ fs => (fs, Some e).

(** The texts one engine (V8) gives its own errors. *)
Definition v8_text (f : fault) : string :=
  match f with
  | ModuleUndeclared => "Module is not defined"
  | ModuleNullish => "Cannot read properties of undefined"
  | NotCallable => "Module.FS_unlink is not a function"
  | MessageOfNullish => "Cannot read properties of undefined (reading 'message')"
  | NotConvertible => "Cannot convert a Symbol value to a string"
  end.

(** A module that is initialised ([_main] is there), has the filesystem
    primitives and [callMain], and nothing else. *)
Definition demo_module : ModuleObj files :=
  MkModule (SlotVal VUndefined) (VFun returns) (VFun demo_createDataFile)
    (VFun demo_unlink) (VFun returns) VUndefined VUndefined.

(** The same module still announcing its initialisation through the slot. *)
Definition demo_module_with_slot : ModuleObj files :=
  with_onRuntimeInitialized (SlotVal (VFun returns)) demo_module.

(** A fresh page around a given [Module] binding, with no page-level
    functions. *)
Definition page (b : binding files) : World files :=
  MkWorld b VUndefined VUndefined VUndefined VUndefined "" [] [] [] [] 0 [] [].

(** A page without [Module] whose author provides [save_state] and
    [load_state] at page level. *)
Definition page_level_only : World files :=
  MkWorld Undeclared VUndefined VUndefined (VFun returns) (VFun returns)
    "" [] [] [] [] 0 [] [].

(** A module with the filesystem primitives but no launch entry point. *)
Definition demo_module_no_launch : ModuleObj files :=
  MkModule (SlotVal VUndefined) (VFun returns) (VFun demo_createDataFile)
    (VFun demo_unlink) VUndefined VUndefined VUndefined.


(** A module exporting [_save_state] and [_load_state], on a page that
    also defines [save_state] and [load_state]. *)
Definition demo_module_with_state : ModuleObj files :=
  MkModule (SlotVal VUndefined) (VFun returns) (VFun demo_createDataFile)
    (VFun demo_unlink) (VFun returns) (VFun returns) (VFun returns).

Definition page_with_both : World files :=
  MkWorld (Object demo_module_with_state) VUndefined VUndefined
    (VFun returns) (VFun returns) "" [] [] [] [] 0 [] [].

Definition rom_bytes : list byte := [x37; x80; x40; x12].

(** A module whose filesystem refuses every new file. *)
Definition demo_module_full_disk : ModuleObj files :=
  MkModule (SlotVal VUndefined) (VFun returns)
    (VFun (throws (ErrorObj "ErrnoError" "No space left")))
    (VFun demo_unlink) (VFun returns) VUndefined VUndefined.


(** A page whose gate polls for a module that has not appeared. *)
Definition page_polling : World files :=
  MkWorld Undeclared VUndefined VUndefined VUndefined VUndefined "" [] [] []
    [Timer 0 50 (Poll (Callback "roms/a.z64" "a.z64"))] 1 [] [].

(** The same page once the wrapper script has defined [Module]. *)
Definition page_polling_module_there : World files :=
  MkWorld (Object demo_module) VUndefined VUndefined VUndefined VUndefined
    "" [] [] []
    [Timer 0 50 (Poll (Callback "roms/a.z64" "a.z64"))] 1 [] [].

(** The module appears while the gate polls for it; the poll sees it and
    the first callback is entered. *)
Definition module_arrives_late : list (event files) :=
  [LoadRom "roms/a.z64"; ScriptDefinesModule (Object demo_module);
   TimerFires 0; TimerFires 1].

(** The request is answered and the user saves. *)
Definition then_played : list (event files) :=
  [FetchSettles 0 (Response true 200 (inr rom_bytes)); SaveClick].

(** The page's own [Module] object, declared before the wrapper script
    runs: nothing is in it yet. *)
Definition demo_module_predeclared : ModuleObj files :=
  MkModule (SlotVal VUndefined) VUndefined VUndefined VUndefined VUndefined
    VUndefined VUndefined.

(** The gate polls on the pre-declared [Module]; the wrapper script fills
    it in; the poll sees the entry point and the first callback is
    entered. *)
Definition module_filled_in_late : list (event files) :=
  [LoadRom "roms/a.z64"; TimerFires 0;
   ScriptDefinesModule (Object demo_module); TimerFires 0; TimerFires 1].

(** The request is answered, the module object is replaced by another
    initialised one, and the user saves. *)
Definition then_replaced : list (event files) :=
  [FetchSettles 0 (Response true 200 (inr rom_bytes));
   ScriptDefinesModule (Object demo_module_with_state); SaveClick].



Definition cb_a : callback := Callback "roms/a.z64" "a.z64".
Definition cb_b : callback := Callback "roms/b.z64" "b.z64".

(** * Properties *)

Section Properties.

Variable St : Type.
Variable engine_text : fault -> string.

Implicit Types (w : World St) (m : ModuleObj St) (f : extfun St).

Local Open Scope list_scope.

(* Status texts stay readable: ["Save failed: " ++ m] is not unfolded. *)
Local Arguments String.append : simpl never.

Local Ltac unfold_js :=
  unfold mountRomToFS, mountRomToFS_begin, mountRomToFS_resume, startEmulator,
    saveState, loadState, loadAndStartRom, whenModuleReady, poll_tick,
    callback_begin, callback_resume, remove_existing, setStatus, add_timer,
    clear_timer, log, module_object, call_value, text_of, try_catch, bind,
    ret, throw, get, modify in *.

(* The call of [g] returns or throws; a handler that builds its message
   from the thrown value gets a text or raises. *)
Local Ltac caught :=
  match goal with
  | |- context [snd (?g ?args ?st)] => destruct (snd (g args st))
  end;
  simpl;
  try match goal with
      | |- context [message_or_self ?x] => destruct (message_or_self x)
      | |- context [message_text ?x] => destruct (message_text x)
      end;
  simpl; auto.

Local Ltac unfold_with :=
  unfold with_Module, with_status, with_console, with_calls, with_timers,
    with_fetching, with_uncaught in *.

(** ** The filename *)

Lemma split_not_nil (sep : ascii) (s : string) : split sep s <> [].
Proof.
  destruct s as [|c rest]; simpl; [discriminate|].
  destruct (Ascii.eqb c sep); [discriminate|].
  destruct (split sep rest); discriminate.
Qed.

Lemma split_single_empty (sep : ascii) (s : string) :
  split sep s = [EmptyString] -> s = EmptyString.
Proof.
  destruct s as [|c rest]; simpl; [reflexivity|].
  destruct (Ascii.eqb c sep).
  - intros H. inversion H as [H1]. elim (split_not_nil sep rest H1).
  - destruct (split sep rest); discriminate.
Qed.

Lemma last_split_empty (sep : ascii) (s : string) :
  last (split sep s) EmptyString = EmptyString
  <-> s = EmptyString \/ ends_with sep s = true.
Proof.
  induction s as [|c rest IH].
  - simpl. split; auto.
  - cbn [split]. destruct (Ascii.eqb c sep) eqn:E.
    + assert (Hl : last (EmptyString :: split sep rest) EmptyString
                   = last (split sep rest) EmptyString).
      { pose proof (split_not_nil sep rest) as Hn.
        destruct (split sep rest); [contradiction|reflexivity]. }
      rewrite Hl, IH. destruct rest as [|d r].
      * simpl. rewrite E. split; auto.
      * cbn [ends_with]. split; intros [H|H]; try discriminate; auto.
    + destruct (split sep rest) as [|seg segs] eqn:Hs.
      * elim (split_not_nil sep rest Hs).
      * destruct segs as [|s2 segs'].
        -- cbn [last]. split; [discriminate|].
           intros [H|H]; [discriminate|].
           destruct rest as [|d r].
           ++ simpl in H. congruence.
           ++ cbn [ends_with] in H.
              assert (seg = EmptyString) as ->.
              { apply proj2 in IH. simpl in IH. apply IH. auto. }
              apply split_single_empty in Hs. discriminate.
        -- change (last (String c seg :: s2 :: segs') EmptyString)
             with (last (seg :: s2 :: segs') EmptyString).
           rewrite IH. destruct rest as [|d r].
           ++ simpl in Hs. discriminate.
           ++ cbn [ends_with]. split; intros [H|H]; try discriminate; auto.
Qed.

(** What the click handler and the load handler hand to the pipeline is
    never the empty string. *)
Lemma selected_url_not_empty (value initial_value : string) :
  selected_url value initial_value <> EmptyString
  /\ defaultRomPath initial_value <> EmptyString.
Proof.
  unfold selected_url, defaultRomPath, or_else.
  destruct initial_value; destruct value; simpl; split; discriminate.
Qed.

(** C9, amended.  The filename [loadAndStartRom] derives is empty exactly
    when the reference is empty or ends in a slash; for every other
    reference it is non-empty. *)
Theorem filename_empty_iff (url : string) :
  filename_of url = EmptyString
  <-> url = EmptyString \/ ends_with "/" url = true.
Proof.
  unfold filename_of. apply last_split_empty.
Qed.

(** ** Lists of calls *)

Lemma invocations_app (t : target) (l1 l2 : list call) :
  invocations t (l1 ++ l2) = invocations t l1 ++ invocations t l2.
Proof. apply filter_app. Qed.

(** ** The mounter *)

(** The best-effort removal never throws; it calls [FS_unlink] when that is
    a function and does nothing otherwise. *)
Lemma remove_existing_eq w filename :
  remove_existing engine_text filename w =
  match window_Module w with
  | Object m =>
      match FS_unlink m with
      | VFun u =>
          (with_calls
             (calls w ++ [Call TFS_unlink [AStr ("/" ++ filename)%string]])
             (fst (u [AStr ("/" ++ filename)%string] (mstate w))) w,
           Normal tt)
      | _ => (w, Normal tt)
      end
  | _ => (w, Normal tt)
  end.
Proof.
  unfold_js. destruct (window_Module w) as [| |m]; simpl; try reflexivity.
  destruct (FS_unlink m) as [|b|u]; simpl; try reflexivity.
  destruct (snd (u _ _)); reflexivity.
Qed.

(** With a success response and the injection primitive in place, the
    mounter calls the primitive once, with the arguments of line 59, whether
    or not that call then throws; it settles as that call completes. *)
Lemma mount_injects_once w url filename status u8 m f :
  window_Module w = Object m ->
  FS_createDataFile m = VFun f ->
  let r := mountRomToFS engine_text url filename
             (Response true status (inr u8)) w in
  invocations TFS_createDataFile (calls (fst r))
  = invocations TFS_createDataFile (calls w)
    ++ [Call TFS_createDataFile (inject_args filename u8)] /\
  snd r
  = match snd (f (inject_args filename u8)
                 (mstate (fst (remove_existing engine_text filename w)))) with
    | None => Normal filename
    | Some e => Throw e
    end.
Proof.
  intros Hm Hf. cbv zeta.
  rewrite (remove_existing_eq w).
  unfold mountRomToFS, mountRomToFS_begin, mountRomToFS_resume, setStatus,
    log, bind, try_catch, get, modify. simpl. rewrite Hm, Hf. simpl.
  rewrite remove_existing_eq. simpl. rewrite Hm.
  unfold call_value, ret, throw.
  destruct (FS_unlink m) as [|b|u]; simpl;
    destruct (snd (f _ _)); simpl;
    rewrite ?invocations_app; simpl; rewrite ?app_nil_r; auto.
Qed.

(** C1.  A successful mount: the response has a success status, the body
    is read, the module exposes [FS_createDataFile] as a function and that
    call returns.  Then [mountRomToFS(url, filename)] resolves to
    [filename] (which [loadAndStartRom] derives as [filename_of url]), the
    primitive has been invoked exactly once more than before, with
    ['/'], [filename], the whole payload, [true], [true], and the status
    reads "ROM mounted". *)
Theorem mount_resolves_to_filename w url filename status u8 m f :
  window_Module w = Object m ->
  FS_createDataFile m = VFun f ->
  snd (f (inject_args filename u8)
         (mstate (fst (remove_existing engine_text filename w)))) = None ->
  let r := mountRomToFS engine_text url filename
             (Response true status (inr u8)) w in
  snd r = Normal filename /\
  invocations TFS_createDataFile (calls (fst r))
  = invocations TFS_createDataFile (calls w)
    ++ [Call TFS_createDataFile
          [AStr "/"; AStr filename; ABytes u8; ABool true; ABool true]] /\
  statusText (fst r) = ("ROM mounted: " ++ filename)%string.
Proof.
  intros Hm Hf Hret r.
  destruct (mount_injects_once w url filename status u8 Hm Hf) as [Hinv Hres].
  fold r in Hinv, Hres. rewrite Hret in Hres.
  split; [exact Hres|]. split; [exact Hinv|].
  subst r. revert Hret. rewrite (remove_existing_eq w).
  unfold mountRomToFS, mountRomToFS_begin, mountRomToFS_resume, setStatus,
    log, bind, try_catch, get, modify. simpl. rewrite Hm, Hf. simpl.
  rewrite remove_existing_eq. simpl. rewrite Hm.
  unfold call_value, ret, throw.
  destruct (FS_unlink m) as [|b|u]; simpl; intros ->; reflexivity.
Qed.

(** C3.  A response whose status is not a success: [mountRomToFS] rejects
    with the error [HTTP <status>], makes no call besides the fetch itself
    (so none to [FS_createDataFile] or [FS_unlink]), and leaves the
    module's private state, filesystem included, as it was.  The
    continuation after the fetch changes nothing at all, whatever page it
    resumes in. *)
Theorem mount_rejects_non_ok w url filename status body :
  let r := mountRomToFS engine_text url filename
             (Response false status body) w in
  snd r = Throw (ErrorObj "Error" ("HTTP " ++ decimal status)) /\
  calls (fst r) = calls w ++ [Call Tfetch [AStr url]] /\
  invocations TFS_createDataFile (calls (fst r))
  = invocations TFS_createDataFile (calls w) /\
  mstate (fst r) = mstate w /\
  (forall w',
     mountRomToFS_resume engine_text (Response false status body) filename w'
     = (w', Throw (ErrorObj "Error" ("HTTP " ++ decimal status)))).
Proof.
  unfold_js. simpl. rewrite invocations_app. simpl. rewrite app_nil_r.
  repeat split.
Qed.

(** ** The launcher *)

(** C4.  [startEmulator] probes [window.startEmulator], then
    [Module.callMain], then [window.run], and calls the first that is a
    function, once, with the absolute path (wrapped in a one-element list
    for [callMain]); it calls nothing else.  (The second probe reads
    [Module]; the launcher runs after a mount, so there is one.)  In
    particular, on a page where of the three only [Module.callMain] is a
    function, [startEmulator("game.z64")] makes the one call
    [callMain(["/game.z64"])]. *)
Theorem start_calls_first_candidate w filename :
  calls (fst (startEmulator engine_text filename w))
  = calls w ++
    (if is_function (window_startEmulator w) then
       [Call Twindow_startEmulator [AStr ("/" ++ filename)%string]]
     else
       match window_Module w with
       | Object m =>
           if is_function (callMain m) then
             [Call TcallMain [AList [("/" ++ filename)%string]]]
           else if is_function (window_run w) then
             [Call Twindow_run [AStr ("/" ++ filename)%string]]
           else []
       | _ => []
       end) /\
  (forall m,
     window_Module w = Object m ->
     is_function (window_startEmulator w) = false ->
     is_function (callMain m) = true ->
     is_function (window_run w) = false ->
     calls (fst (startEmulator engine_text "game.z64" w))
     = calls w ++ [Call TcallMain [AList ["/game.z64"%string]]]).
Proof.
  assert (G : forall fn, calls (fst (startEmulator engine_text fn w))
  = calls w ++
    (if is_function (window_startEmulator w) then
       [Call Twindow_startEmulator [AStr ("/" ++ fn)%string]]
     else
       match window_Module w with
       | Object m =>
           if is_function (callMain m) then
             [Call TcallMain [AList [("/" ++ fn)%string]]]
           else if is_function (window_run w) then
             [Call Twindow_run [AStr ("/" ++ fn)%string]]
           else []
       | _ => []
       end)).
  { intros fn. unfold_js. simpl.
    destruct (window_startEmulator w) as [|b|g]; simpl;
      try solve [caught];
      (destruct (window_Module w) as [| |m]; simpl; rewrite ?app_nil_r;
       try reflexivity; 
       destruct (callMain m) as [|b'|g]; simpl;
       try solve [caught];
       destruct (window_run w) as [|b''|h]; simpl; rewrite ?app_nil_r; try reflexivity;
       caught). }
  split; [apply G|].
  intros m Hm Hs Hc Hr. rewrite G, Hs, Hm, Hc. reflexivity.
Qed.

(** [startEmulator] is reached only from the callback, after the mounter
    has resolved, and the mounter resolves only on a page with a module
    object: the launcher always finds [Module] to probe. *)
Lemma mount_resolved_has_module w r filename w1 mounted :
  mountRomToFS_resume engine_text r filename w = (w1, Normal mounted) ->
  exists m, window_Module w1 = Object m.
Proof.
  unfold mountRomToFS_resume, bind, try_catch, get, throw, ret.
  destruct r as [e|ok status [e|u8]]; try discriminate;
    destruct ok; simpl; try discriminate.
  destruct (window_Module w) as [| |m] eqn:Hm; try discriminate.
  destruct (negb (truthy (FS_createDataFile m))); try discriminate.
  rewrite remove_existing_eq, Hm.
  unfold call_value, setStatus, log, modify, bind.
  destruct (FS_unlink m) as [|b|u]; simpl;
    destruct (FS_createDataFile m) as [|b'|f]; simpl; try discriminate;
    destruct (snd (f _ _)); simpl; try discriminate;
    intros H; inversion H; subst; simpl; eauto.
Qed.

(** C7.  On a page with a module object where [window.startEmulator],
    [Module.callMain] and [window.run] are all not functions,
    [startEmulator] returns normally having changed only the status line
    and the console: nothing is invoked, a warning is logged, and the
    status ends as "Emulator start function not found". *)
Theorem start_without_candidates w m filename :
  window_Module w = Object m ->
  is_function (window_startEmulator w) = false ->
  is_function (callMain m) = false ->
  is_function (window_run w) = false ->
  startEmulator engine_text filename w
  = (with_console
       (console w ++
        [ConsoleLog "[N64]" ("Starting emulator: " ++ filename);
         ConsoleWarn "No obvious start function found — you may need to adapt startEmulator() in script.js";
         ConsoleLog "[N64]" "Emulator start function not found"])
       (with_status "Emulator start function not found" w),
     Normal tt).
Proof.
  intros Hm Hs Hc Hr. unfold_js. simpl. rewrite Hs. simpl. rewrite Hm.
  rewrite Hc, Hr. simpl. unfold_with. simpl.
  rewrite <- !app_assoc. reflexivity.
Qed.

(** ** Save and load state *)

(** C6, amended.  On a page with a module object, [saveState] calls
    [Module._save_state] when it is a function and nothing else; otherwise
    it calls [window.save_state] when that is a function; otherwise it
    calls nothing and the status ends as "No save-state API found in
    WASM".  [loadState] does the same with [_load_state] and
    [load_state]. *)
Theorem state_transfer_prefers_module w m :
  window_Module w = Object m ->
  (calls (fst (saveState engine_text w))
   = calls w ++
     (if is_function (_save_state m) then [Call T_save_state []]
      else if is_function (window_save_state w)
           then [Call Twindow_save_state []]
           else []) /\
   (is_function (_save_state m) = false ->
    is_function (window_save_state w) = false ->
    statusText (fst (saveState engine_text w))
    = "No save-state API found in WASM")) /\
  (calls (fst (loadState engine_text w))
   = calls w ++
     (if is_function (_load_state m) then [Call T_load_state []]
      else if is_function (window_load_state w)
           then [Call Twindow_load_state []]
           else []) /\
   (is_function (_load_state m) = false ->
    is_function (window_load_state w) = false ->
    statusText (fst (loadState engine_text w))
    = "No load-state API found in WASM")).
Proof.
  intros Hm. split.
  - split.
    + unfold_js. simpl. rewrite Hm.
      destruct (_save_state m) as [|b|g]; simpl;
        try solve [caught];
        (destruct (window_save_state w) as [|b'|h]; simpl;
         rewrite ?app_nil_r; try reflexivity;
         caught).
    + intros H1 H2. unfold_js. simpl. rewrite Hm, H1. simpl. rewrite H2. reflexivity.
  - split.
    + unfold_js. simpl. rewrite Hm.
      destruct (_load_state m) as [|b|g]; simpl;
        try solve [caught];
        (destruct (window_load_state w) as [|b'|h]; simpl;
         rewrite ?app_nil_r; try reflexivity;
         caught).
    + intros H1 H2. unfold_js. simpl. rewrite Hm, H1. simpl. rewrite H2. reflexivity.
Qed.




(** C10.  With no module object ([Module] undeclared, or holding
    [undefined] or [null]) the probe [typeof Module._save_state] raises
    inside the [try]; [saveState] catches it, logs it, sets the status to
    "Save failed: " followed by the engine's text, calls nothing and
    returns normally.  [loadState] likewise, with "Load state failed: ". *)
Theorem state_transfer_without_module w flt :
  module_fault w = Some flt ->
  (snd (saveState engine_text w) = Normal tt /\
   statusText (fst (saveState engine_text w))
   = ("Save failed: " ++ engine_text flt)%string /\
   calls (fst (saveState engine_text w)) = calls w) /\
  (snd (loadState engine_text w) = Normal tt /\
   statusText (fst (loadState engine_text w))
   = ("Load state failed: " ++ engine_text flt)%string /\
   calls (fst (loadState engine_text w)) = calls w).
Proof.
  unfold module_fault. intros H.
  destruct (window_Module w) as [| |m] eqn:Hm; inversion H; subst;
    unfold_js; simpl; rewrite Hm; simpl; repeat split; reflexivity.
Qed.

(** ** The pipeline *)

(** The handler of [loadAndStartRom] (lines 104-107) never runs: the gate
    returns normally, and what the callback does later is not inside the
    [try]. *)
Lemma loadAndStartRom_is_gate url w :
  loadAndStartRom engine_text url w
  = whenModuleReady (Callback url (filename_of url)) w /\
  snd (loadAndStartRom engine_text url w) = Normal tt /\
  statusText (fst (loadAndStartRom engine_text url w)) = statusText w /\
  console (fst (loadAndStartRom engine_text url w)) = console w.
Proof.
  assert (G : forall cb,
            snd (whenModuleReady cb w) = Normal tt /\
            statusText (fst (whenModuleReady cb w)) = statusText w /\
            console (fst (whenModuleReady cb w)) = console w).
  { intros cb. unfold_js. simpl.
    destruct (window_Module w) as [| |m]; simpl; auto.
    destruct (slot_truthy _); simpl; auto.
    destruct (truthy _); simpl; auto. }
  unfold loadAndStartRom, try_catch.
  specialize (G (Callback url (filename_of url))).
  destruct (whenModuleReady _ w) as [w1 [[]|e]]; simpl in *.
  - tauto.
  - destruct G as [G _]. discriminate.
Qed.

(** A rejection of the mounter inside the callback is not caught by
    anything: it lands among the unhandled, and the page is otherwise as
    the mounter left it (no "Error loading ROM" status, no
    [console.error] from the pipeline's handler). *)
Lemma mount_rejection_unhandled w i cb r w1 e :
  nth_error (fetching w) i = Some cb ->
  mountRomToFS_resume engine_text r (cb_filename cb)
    (with_fetching (remove_nth i (fetching w)) w) = (w1, Throw e) ->
  step engine_text (FetchSettles i r) w
  = with_uncaught (uncaught w1 ++ [e]) w1.
Proof.
  intros Hn Hm. simpl. rewrite Hn.
  unfold run_task, callback_resume, bind. rewrite Hm. reflexivity.
Qed.


(** ** What the synchronous code keeps *)

Implicit Types (P : World St -> Prop) (b : binding St).

Lemma preserves_ret A P (a : A) : preserves P (ret a).
Proof. intros w H. exact H. Qed.

Lemma preserves_throw A P e : preserves P (@throw (World St) A e).
Proof. intros w H. exact H. Qed.

Lemma preserves_get P : preserves P (@get (World St)).
Proof. intros w H. exact H. Qed.

Lemma preserves_modify (P : World St -> Prop) (g : World St -> World St) :
  (forall w, P w -> P (g w)) -> preserves P (modify g).
Proof. intros Hg w H. apply Hg, H. Qed.

Lemma preserves_bind A B P (c : M (World St) A) (k : A -> M (World St) B) :
  preserves P c -> (forall a, preserves P (k a)) -> preserves P (bind c k).
Proof.
  intros Hc Hk w H. unfold bind. specialize (Hc w H).
  destruct (c w) as [w1 [a|e]]; simpl in *; [apply Hk, Hc | exact Hc].
Qed.

Lemma preserves_try_catch A P (c : M (World St) A) (h : thrown -> M (World St) A) :
  preserves P c -> (forall e, preserves P (h e)) -> preserves P (try_catch c h).
Proof.
  intros Hc Hh w H. unfold try_catch. specialize (Hc w H).
  destruct (c w) as [w1 [a|e]]; simpl in *; [exact Hc | apply Hh, Hc].
Qed.

Lemma preserves_text_of P (r : fault + string) :
  preserves P (text_of engine_text r).
Proof. intros w H. destruct r; exact H. Qed.

Lemma fetches_app w (l : list call) s :
  fetches (with_calls (calls w ++ l) s w) = fetches w ++ invocations Tfetch l.
Proof. unfold fetches. simpl. apply invocations_app. Qed.

Section Framed.

Variable P : World St -> Prop.
Hypothesis P_framed : framed P.

Lemma preserves_log c : preserves P (log c).
Proof. apply preserves_modify. intros w. apply P_framed; reflexivity. Qed.

Lemma preserves_setStatus s : preserves P (setStatus s).
Proof.
  apply preserves_bind; [|intros; apply preserves_log].
  apply preserves_modify. intros w. apply P_framed; reflexivity.
Qed.

Lemma preserves_module_object : preserves P (module_object engine_text).
Proof.
  intros w H. unfold module_object. destruct (window_Module w); exact H.
Qed.

Lemma preserves_call_value t v args :
  target_eqb t Tfetch = false ->
  preserves P (call_value engine_text t v args).
Proof.
  intros Ht w H. unfold call_value. destruct v as [|b|f]; simpl; try exact H.
  assert (G : P (with_calls (calls w ++ [Call t args])
                   (fst (f args (mstate w))) w)).
  { revert H. apply P_framed; try reflexivity.
    rewrite fetches_app. simpl. rewrite Ht. apply app_nil_r. }
  destruct (snd (f args (mstate w))); exact G.
Qed.

Local Ltac preserve :=
  repeat first
    [ apply preserves_ret
    | apply preserves_throw
    | apply preserves_get
    | apply preserves_text_of
    | apply preserves_setStatus
    | apply preserves_log
    | apply preserves_module_object
    | apply preserves_call_value; reflexivity
    | apply preserves_bind; [|intros]
    | apply preserves_try_catch; [|intros]
    | match goal with
      | |- preserves _ (if ?b then _ else _) => destruct b
      | |- preserves _ (match ?x with _ => _ end) => destruct x
      end ].

Lemma preserves_remove_existing filename :
  preserves P (remove_existing engine_text filename).
Proof. unfold remove_existing. preserve. Qed.

Lemma preserves_mountRomToFS_resume r filename :
  preserves P (mountRomToFS_resume engine_text r filename).
Proof.
  unfold mountRomToFS_resume. preserve; apply preserves_remove_existing.
Qed.

Lemma preserves_startEmulator filename :
  preserves P (startEmulator engine_text filename).
Proof. unfold startEmulator. preserve. Qed.

Lemma preserves_saveState : preserves P (saveState engine_text).
Proof. unfold saveState. preserve. Qed.

Lemma preserves_loadState : preserves P (loadState engine_text).
Proof. unfold loadState. preserve. Qed.

Lemma preserves_callback_resume cb r :
  preserves P (callback_resume engine_text cb r).
Proof.
  apply preserves_bind; [apply preserves_mountRomToFS_resume|].
  intros; apply preserves_startEmulator.
Qed.

Lemma preserves_run_task (c : M (World St) unit) w :
  preserves P c -> P w -> P (run_task c w).
Proof.
  intros Hc H. unfold run_task. specialize (Hc w H).
  destruct (c w) as [w1 [a|e]]; simpl in *; [exact Hc|].
  revert Hc. apply P_framed; reflexivity.
Qed.

(** Entering the callback sends a request, which not every framed
    property survives. *)
Hypothesis P_request :
  forall url w,
    P w -> P (with_calls (calls w ++ [Call Tfetch [AStr url]]) (mstate w) w).

Lemma preserves_callback_begin cb : preserves P (callback_begin cb).
Proof.
  apply preserves_bind.
  - apply preserves_bind; [apply preserves_setStatus|]. intros _.
    apply preserves_modify. intros w. apply P_request.
  - intros _. apply preserves_modify. intros w. apply P_framed; reflexivity.
Qed.

End Framed.

(** *** The [Module] binding *)

Lemma module_is_framed b : framed (module_is b).
Proof. intros w w' Hm _ _ _ H. unfold module_is in *. congruence. Qed.

Lemma module_kept_add_timer b k d : preserves (module_is b) (add_timer k d).
Proof. apply preserves_modify. intros w H. exact H. Qed.

Lemma module_kept_clear_timer b id : preserves (module_is b) (clear_timer id).
Proof. apply preserves_modify. intros w H. exact H. Qed.

Lemma module_kept_callback_begin b cb :
  preserves (module_is b) (callback_begin cb).
Proof.
  apply preserves_callback_begin; [apply module_is_framed|].
  intros url w H. exact H.
Qed.

(** One task that is a call of [loadAndStartRom] is one call of the gate. *)
Lemma step_LoadRom url w :
  step engine_text (LoadRom url) w
  = fst (whenModuleReady (Callback url (filename_of url)) w).
Proof.
  simpl. unfold run_task.
  destruct (loadAndStartRom_is_gate url w) as [H1 [H2 _]].
  rewrite <- H1. destruct (loadAndStartRom engine_text url w) as [w1 [[]|e]];
    simpl in *; [reflexivity|discriminate].
Qed.

(** With the slot free the gate arms a timer, of one kind or the other. *)
Lemma gate_with_free_slot w cb :
  slot_free (window_Module w) = true ->
  exists k,
    whenModuleReady cb w
    = (with_timers (timers w ++ [Timer (next_timer w) 50 k])
         (S (next_timer w)) w, Normal tt) /\
    (k = OneShot cb /\ settled w \/ k = Poll cb).
Proof.
  intros Hs. unfold whenModuleReady, bind, get, add_timer, modify. simpl.
  destruct (window_Module w) as [| |m] eqn:Hm; simpl in *.
  - exists (Poll cb). auto.
  - exists (Poll cb). auto.
  - apply negb_true_iff in Hs. rewrite Hs.
    destruct (truthy (_main m)) eqn:Hmain.
    + exists (OneShot cb). split; [reflexivity|]. left. split; [reflexivity|].
      exists m. split; [exact Hm|]. split; assumption.
    + exists (Poll cb). auto.
Qed.

(** On a settled page the gate takes the branch of line 32: one one-shot
    timer, nothing else. *)
Lemma gate_arms_timer w m cb :
  window_Module w = Object m ->
  entry_point_only m ->
  whenModuleReady cb w
  = (with_timers (timers w ++ [Timer (next_timer w) 50 (OneShot cb)])
       (S (next_timer w)) w,
     Normal tt).
Proof.
  intros Hm [Hs Hmain]. unfold whenModuleReady, bind, get, add_timer, modify.
  simpl. rewrite Hm, Hs, Hmain. reflexivity.
Qed.

(** With something in the slot the gate takes the branch of lines 25-29:
    it wraps the slot and arms nothing. *)
Lemma gate_chains w m cb :
  window_Module w = Object m ->
  slot_truthy (onRuntimeInitialized m) = true ->
  whenModuleReady cb w
  = (with_Module
       (Object (with_onRuntimeInitialized
                  (SlotChained (onRuntimeInitialized m) cb) m)) w,
     Normal tt).
Proof.
  intros Hm Hs. unfold whenModuleReady, bind, get, modify.
  simpl. rewrite Hm, Hs. reflexivity.
Qed.

(** No code of the script or of the module replaces a binding whose slot
    is free. *)
Lemma module_kept_step ev w b :
  program_event ev = true ->
  slot_free b = true ->
  module_is b w ->
  module_is b (step engine_text ev w).
Proof.
  intros Hev Hs H.
  pose proof (@module_is_framed b) as F.
  destruct ev as [url| | |id| |i r|b']; try discriminate.
  - rewrite step_LoadRom.
    destruct (@gate_with_free_slot w (Callback url (filename_of url)))
      as [k [Hk _]].
    + rewrite H. exact Hs.
    + rewrite Hk. exact H.
  - simpl. apply preserves_run_task; [exact F| |exact H].
    apply preserves_saveState, F.
  - simpl. apply preserves_run_task; [exact F| |exact H].
    apply preserves_loadState, F.
  - simpl. destruct (find _ (timers w)) as [[tid d [cb|cb]]|]; [| |exact H].
    + apply preserves_run_task; [exact F| |exact H].
      apply preserves_bind; [apply module_kept_clear_timer|]. intros _.
      apply module_kept_callback_begin.
    + apply preserves_run_task; [exact F| |exact H].
      unfold poll_tick. apply preserves_bind; [apply preserves_get|].
      intros w0. destruct (window_Module w0) as [| |m0];
        try apply preserves_ret.
      destruct (_ || _); [|apply preserves_ret].
      apply preserves_bind; [apply module_kept_clear_timer|]. intros _.
      apply module_kept_add_timer.
  - simpl. rewrite H. destruct b as [| |m]; try exact H.
    simpl in Hs. apply negb_true_iff in Hs. rewrite Hs. exact H.
  - simpl. destruct (nth_error _ i) as [cb|]; [|exact H].
    apply preserves_run_task; [exact F| |exact H].
    apply preserves_callback_resume, F.
Qed.

(** *** Timer ids *)

Lemma fresh_framed : framed (@fresh St).
Proof.
  intros w w' _ Ht Hn _ H. unfold fresh, timers_fresh in *.
  rewrite Ht, Hn. exact H.
Qed.

Lemma fresh_add_timer k d : preserves (@fresh St) (add_timer k d).
Proof.
  intros w H. unfold fresh, timers_fresh, add_timer, modify in *. simpl.
  rewrite forallb_app. simpl.
  apply andb_true_intro. split.
  - rewrite forallb_forall in *. intros t Ht. specialize (H t Ht).
    rewrite Nat.ltb_lt in *. lia.
  - rewrite andb_true_r. apply Nat.ltb_lt. lia.
Qed.

Lemma fresh_clear_timer id : preserves (@fresh St) (clear_timer id).
Proof.
  intros w H. unfold fresh, timers_fresh, clear_timer, modify in *. simpl.
  rewrite forallb_forall in *. intros t Ht.
  apply filter_In in Ht. apply H, Ht.
Qed.

Lemma fresh_callback_begin cb : preserves (@fresh St) (callback_begin cb).
Proof.
  apply preserves_callback_begin; [apply fresh_framed|].
  intros url w H. exact H.
Qed.

Lemma fresh_whenModuleReady cb : preserves (@fresh St) (whenModuleReady cb).
Proof.
  unfold whenModuleReady. apply preserves_bind; [apply preserves_get|].
  intros w0. destruct (window_Module w0) as [| |m];
    try apply fresh_add_timer.
  destruct (slot_truthy (onRuntimeInitialized m)).
  - apply preserves_modify. intros w H. exact H.
  - destruct (truthy (_main m)); apply fresh_add_timer.
Qed.

Lemma fresh_invoke_ready s :
  preserves (@fresh St) (invoke_ready engine_text s).
Proof.
  induction s as [v|prev IH cb]; simpl.
  - apply preserves_call_value; [apply fresh_framed|reflexivity].
  - apply preserves_bind.
    + apply preserves_try_catch; [exact IH|]. intros; apply preserves_ret.
    + intros _. apply fresh_callback_begin.
Qed.

Lemma fresh_step ev w : fresh w -> fresh (step engine_text ev w).
Proof.
  intros H. pose proof fresh_framed as F.
  destruct ev as [url| | |id| |i r|b]; simpl.
  - apply preserves_run_task; [exact F| |exact H].
    unfold loadAndStartRom. apply preserves_try_catch.
    + apply fresh_whenModuleReady.
    + intros e. apply preserves_bind; [apply preserves_log, F|].
      intros _. apply preserves_bind; [apply preserves_text_of|].
      intros msg. apply preserves_setStatus, F.
  - apply preserves_run_task; [exact F| |exact H].
    apply preserves_saveState, F.
  - apply preserves_run_task; [exact F| |exact H].
    apply preserves_loadState, F.
  - destruct (find _ (timers w)) as [[tid d [cb|cb]]|]; [| |exact H].
    + apply preserves_run_task; [exact F| |exact H].
      apply preserves_bind; [apply fresh_clear_timer|]. intros _.
      apply fresh_callback_begin.
    + apply preserves_run_task; [exact F| |exact H].
      unfold poll_tick. apply preserves_bind; [apply preserves_get|].
      intros w0. destruct (window_Module w0) as [| |m];
        try apply preserves_ret.
      destruct (_ || _); [|apply preserves_ret].
      apply preserves_bind; [apply fresh_clear_timer|]. intros _.
      apply fresh_add_timer.
  - destruct (window_Module w) as [| |m]; try exact H.
    destruct (slot_truthy _); [|exact H].
    apply preserves_run_task; [exact F| |exact H].
    apply fresh_invoke_ready.
  - destruct (nth_error _ i) as [cb|]; [|exact H].
    apply preserves_run_task; [exact F| |].
    + apply preserves_callback_resume, F.
    + exact H.
  - exact H.
Qed.

(** A fresh one-shot timer, fired, enters its callback. *)
Lemma fired_timer_signals w cb d :
  fresh w ->
  signalled cb
    (step engine_text (TimerFires (next_timer w))
       (fst (add_timer (OneShot cb) d w))) = true.
Proof.
  intros H. unfold add_timer, modify. simpl.
  assert (Hfind : find (fun t => Nat.eqb (t_id t) (next_timer w))
                    (timers w ++ [Timer (next_timer w) d (OneShot cb)])
                  = Some (Timer (next_timer w) d (OneShot cb))).
  { unfold fresh, timers_fresh in H. induction (timers w) as [|t ts IH]; simpl.
    - rewrite Nat.eqb_refl. reflexivity.
    - simpl in H. apply andb_prop in H. destruct H as [Ht Hts].
      apply Nat.ltb_lt in Ht.
      destruct (Nat.eqb_spec (t_id t) (next_timer w)); [lia|].
      apply IH, Hts. }
  rewrite Hfind. unfold run_task, signalled. unfold_js. simpl.
  rewrite existsb_app. simpl. rewrite String.eqb_refl.
  rewrite orb_true_r. reflexivity.
Qed.

(** *** The invariant of the gate *)

Lemma no_oneshot_framed : framed (fun w : World St => no_oneshot w = true).
Proof. intros w w' _ Ht _ _ H. unfold no_oneshot in *. rewrite Ht. exact H. Qed.

Lemma no_fetches_framed : framed (fun w : World St => fetches w = []).
Proof. intros w w' _ _ _ Hf H. rewrite Hf. exact H. Qed.

(** With no callback on its way, nothing that keeps framed properties
    puts one on its way. *)
Lemma quiet_task (c : M (World St) unit) w :
  (forall P, framed P -> preserves P c) ->
  no_oneshot w = true /\ fetches w = [] ->
  no_oneshot (run_task c w) = true /\ fetches (run_task c w) = [].
Proof.
  intros Hc [H1 H2]. split.
  - apply (preserves_run_task no_oneshot_framed);
      [apply Hc, no_oneshot_framed | exact H1].
  - apply (preserves_run_task no_fetches_framed);
      [apply Hc, no_fetches_framed | exact H2].
Qed.

Lemma slot_free_step ev w :
  admissible w ev = true ->
  slot_free (window_Module w) = true ->
  slot_free (window_Module (step engine_text ev w)) = true.
Proof.
  intros Ha Hs.
  assert (K : program_event ev = true ->
              window_Module (step engine_text ev w) = window_Module w).
  { intros Hp. apply (@module_kept_step ev w (window_Module w));
      [exact Hp | exact Hs | reflexivity]. }
  destruct ev as [url| | |id| |i r|b];
    try (rewrite K; [exact Hs | reflexivity]).
  simpl in *. apply andb_prop in Ha. apply Ha.
Qed.

Lemma settled_step ev w :
  admissible w ev = true -> settled w -> settled (step engine_text ev w).
Proof.
  intros Ha [m [Hm He]].
  assert (K : program_event ev = true -> settled (step engine_text ev w)).
  { intros Hp. exists m. split; [|exact He].
    apply module_kept_step; [exact Hp| |exact Hm].
    simpl. destruct He as [Hs _]. rewrite Hs. reflexivity. }
  destruct ev as [url| | |id| |i r|b]; try (apply K; reflexivity).
  simpl in *. rewrite Hm in Ha. destruct He as [_ Hmain]. simpl in Ha.
  rewrite Hmain in Ha. apply andb_prop in Ha. destruct Ha as [Hfree Hkept].
  destruct b as [| |m']; simpl in *; try discriminate.
  exists m'. split; [reflexivity|]. split; [|exact Hkept].
  apply negb_true_iff, Hfree.
Qed.

Lemma quiet_step ev w :
  admissible w ev = true ->
  slot_free (window_Module w) = true ->
  no_oneshot w = true /\ fetches w = [] ->
  (no_oneshot (step engine_text ev w) = true /\
   fetches (step engine_text ev w) = [])
  \/ settled (step engine_text ev w).
Proof.
  intros Ha Hs [H1 H2].
  destruct ev as [url| | |id| |i r|b].
  - rewrite step_LoadRom.
    destruct (@gate_with_free_slot w (Callback url (filename_of url)) Hs)
      as [k [Hk [[-> [m [Hm He]]] | ->]]]; rewrite Hk; simpl.
    + right. exists m. split; assumption.
    + left. split; [|exact H2]. unfold no_oneshot in *. simpl.
      rewrite forallb_app, H1. reflexivity.
  - left. apply quiet_task; [|auto].
    intros P F. apply preserves_saveState, F.
  - left. apply quiet_task; [|auto].
    intros P F. apply preserves_loadState, F.
  - simpl. destruct (find _ (timers w)) as [[tid d k]|] eqn:Hfind; [|auto].
    apply find_some in Hfind. destruct Hfind as [Hin _].
    assert (Hk : match k with OneShot _ => false | Poll _ => true end = true).
    { unfold no_oneshot in H1. rewrite forallb_forall in H1.
      exact (H1 _ Hin). }
    destruct k as [cb|cb]; [discriminate|].
    unfold run_task, poll_tick, bind, get, ret, clear_timer, add_timer, modify.
    simpl. destruct (window_Module w) as [| |m] eqn:Hm; simpl; auto.
    simpl in Hs. apply negb_true_iff in Hs. rewrite Hs. simpl.
    destruct (truthy (_main m)) eqn:Hmain; simpl; auto.
    right. exists m. split; [exact Hm|]. split; assumption.
  - simpl. destruct (window_Module w) as [| |m] eqn:Hm; auto.
    simpl in Hs. apply negb_true_iff in Hs. rewrite Hs. auto.
  - simpl. destruct (nth_error _ i) as [cb|]; [|auto].
    left. apply quiet_task; [|auto].
    intros P F. apply preserves_callback_resume, F.
  - left. auto.
Qed.

Lemma gate_invariant_step ev w :
  admissible w ev = true ->
  gate_invariant w -> gate_invariant (step engine_text ev w).
Proof.
  intros Ha [Hs [Hf Hq]]. split; [apply slot_free_step; assumption|].
  split; [apply fresh_step; assumption|].
  destruct Hq as [Hq|Hq].
  - apply quiet_step; assumption.
  - right. apply settled_step; assumption.
Qed.

Lemma gate_invariant_run evs w :
  admissible_run engine_text evs w = true ->
  gate_invariant w -> gate_invariant (run engine_text evs w).
Proof.
  revert w. induction evs as [|ev evs IH]; intros w Ha H; simpl in *.
  - exact H.
  - apply andb_prop in Ha. destruct Ha as [Ha1 Ha2].
    apply IH; [exact Ha2|]. apply gate_invariant_step; assumption.
Qed.

Lemma signalled_has_fetch cb w : signalled cb w = true -> fetches w <> [].
Proof.
  unfold signalled, fetches, invocations.
  induction (calls w) as [|c l IH]; simpl; [discriminate|].
  destruct c as [t args]. simpl.
  destruct t; simpl; try exact IH. discriminate.
Qed.

(** C5, amended.  On a page where nothing is ever put into the
    [onRuntimeInitialized] slot and [_main], once there, is not taken away
    again ([Module] may be absent at first, pre-declared and filled in
    later, or replaced), readiness is monotonic: once the gate has entered
    one callback, the module shows its entry point, and at every later
    moment a call to the gate arms
    exactly one one-shot timer for its callback and does nothing else: it
    starts no polling interval and does not wrap the slot, so it waits for
    no external callback; when that timer fires the callback is entered. *)
Theorem gate_monotonic_with_free_slot w0 evs cb1 evs' cb2 :
  slot_free (window_Module w0) = true ->
  timers w0 = [] ->
  calls w0 = [] ->
  admissible_run engine_text evs w0 = true ->
  signalled cb1 (run engine_text evs w0) = true ->
  admissible_run engine_text evs' (run engine_text evs w0) = true ->
  let w := run engine_text evs' (run engine_text evs w0) in
  let w' := fst (whenModuleReady cb2 w) in
  settled w /\
  whenModuleReady cb2 w
  = (with_timers (timers w ++ [Timer (next_timer w) 50 (OneShot cb2)])
       (S (next_timer w)) w,
     Normal tt) /\
  polling_for cb2 w' = polling_for cb2 w /\
  awaits_runtime cb2 w' = false /\
  signalled cb2 (step engine_text (TimerFires (next_timer w)) w') = true.
Proof.
  intros Hs Ht Hc Ha Hsig Ha' w w'.
  assert (I0 : gate_invariant w0).
  { split; [exact Hs|]. split.
    - unfold fresh, timers_fresh. rewrite Ht. reflexivity.
    - left. unfold no_oneshot, fetches. rewrite Ht, Hc. auto. }
  pose proof (gate_invariant_run evs Ha I0) as I1.
  assert (I1' : gate_invariant (run engine_text evs w0)).
  { destruct I1 as [S1 [F1 [[_ Q]|Q]]].
    - elim (signalled_has_fetch _ _ Hsig Q).
    - split; [exact S1|]. split; [exact F1|]. right. exact Q. }
  assert (Hset : forall l (v : World St),
            admissible_run engine_text l v = true ->
            settled v -> settled (run engine_text l v)).
  { induction l as [|ev l IH]; intros v Hl Hv; simpl in *; [exact Hv|].
    apply andb_prop in Hl. destruct Hl as [Hl1 Hl2].
    apply IH; [exact Hl2|]. apply settled_step; assumption. }
  assert (Sw : settled w).
  { apply Hset; [exact Ha'|]. destruct I1 as [_ [_ [[_ Q]|Q]]]; [|exact Q].
    elim (signalled_has_fetch _ _ Hsig Q). }
  assert (Fw : fresh w).
  { apply (gate_invariant_run evs' Ha' I1'). }
  split; [exact Sw|]. destruct Sw as [m [Hm He]].
  subst w'. rewrite (@gate_arms_timer w m cb2 Hm He). simpl.
  split; [reflexivity|]. split.
  - unfold polling_for. simpl. rewrite existsb_app. simpl.
    rewrite orb_false_r. reflexivity.
  - split.
    + unfold awaits_runtime. simpl. rewrite Hm.
      destruct He as [Hslot _].
      destruct (onRuntimeInitialized m); [reflexivity|discriminate].
    + exact (@fired_timer_signals w cb2 50 Fw).
Qed.

(** * Further properties of the script *)

(** ** More on the mounter *)

(** X1.  When the injection call throws, the settling mounter logs the
    thrown value with [console.error] and rejects with that same value; it
    does not write the status, which stays whatever it was when the
    response arrived, and the primitive has been called once.  What the
    removal before it did to the module is not undone. *)
Theorem mount_rethrows_injection_failure w filename status u8 m f e :
  window_Module w = Object m ->
  FS_createDataFile m = VFun f ->
  snd (f (inject_args filename u8)
         (mstate (fst (remove_existing engine_text filename w)))) = Some e ->
  let r := mountRomToFS_resume engine_text
             (Response true status (inr u8)) filename w in
  snd r = Throw e /\
  statusText (fst r) = statusText w /\
  console (fst r) = console w ++ [ConsoleError None e] /\
  invocations TFS_createDataFile (calls (fst r))
  = invocations TFS_createDataFile (calls w)
    ++ [Call TFS_createDataFile (inject_args filename u8)] /\
  mstate (fst r)
  = fst (f (inject_args filename u8)
           (mstate (fst (remove_existing engine_text filename w)))).
Proof.
  intros Hm Hf. cbv zeta. rewrite (remove_existing_eq w).
  unfold mountRomToFS_resume, setStatus,
    log, bind, try_catch, get, modify. simpl. rewrite Hm, Hf. simpl.
  rewrite remove_existing_eq. simpl. rewrite Hm.
  unfold call_value, ret, throw.
  destruct (FS_unlink m) as [|b|u]; simpl; intros He; rewrite He; simpl;
    rewrite ?invocations_app; simpl; rewrite ?app_nil_r;
    rewrite <- ?app_assoc; repeat split; reflexivity.
Qed.

(** X2.  A mount stops before the filesystem in three ways, and each
    time it has only set the "Fetching" status and sent the request: when
    the request itself fails and when reading the body fails it rejects
    with that very error; when there is no module object, or nothing
    truthy in [Module.FS_createDataFile], it rejects with "Emscripten FS
    not available ...".  (The fourth way, a status that is not a success,
    is [mount_rejects_non_ok].) *)
Theorem mount_stops_before_filesystem w url filename :
  (forall e,
     mountRomToFS engine_text url filename (NetworkFailure e) w
     = (fst (mountRomToFS_begin url w), Throw e)) /\
  (forall e status,
     mountRomToFS engine_text url filename (Response true status (inl e)) w
     = (fst (mountRomToFS_begin url w), Throw e)) /\
  (forall status u8,
     match window_Module w with
     | Object m => truthy (FS_createDataFile m)
     | _ => false
     end = false ->
     mountRomToFS engine_text url filename (Response true status (inr u8)) w
     = (fst (mountRomToFS_begin url w),
        Throw (ErrorObj "Error"
                 "Emscripten FS not available (Module.FS_createDataFile missing)"))) /\
  calls (fst (mountRomToFS_begin url w)) = calls w ++ [Call Tfetch [AStr url]] /\
  mstate (fst (mountRomToFS_begin url w)) = mstate w.
Proof.
  split; [reflexivity|]. split; [reflexivity|]. split; [|split; reflexivity].
  intros status u8 H.
  unfold mountRomToFS, mountRomToFS_begin, mountRomToFS_resume,
    setStatus, log, bind, try_catch, get, modify, throw. simpl.
  destruct (window_Module w) as [| |m]; try reflexivity.
  rewrite H. reflexivity.
Qed.

(** X3.  The calls of a mount that got past its checks, in order: the
    request, then [FS_unlink('/' + filename)] if [FS_unlink] is a
    function, then [FS_createDataFile]; whether the removal throws makes
    no difference to the calls made nor to how the mount settles. *)
Theorem mount_call_order w url filename status u8 m f :
  window_Module w = Object m ->
  FS_createDataFile m = VFun f ->
  calls (fst (mountRomToFS engine_text url filename
                (Response true status (inr u8)) w))
  = calls w
    ++ [Call Tfetch [AStr url]]
    ++ (if is_function (FS_unlink m)
        then [Call TFS_unlink [AStr ("/" ++ filename)%string]]
        else [])
    ++ [Call TFS_createDataFile (inject_args filename u8)].
Proof.
  intros Hm Hf.
  unfold mountRomToFS, mountRomToFS_begin, mountRomToFS_resume, setStatus,
    log, bind, try_catch, get, modify. simpl. rewrite Hm, Hf. simpl.
  rewrite remove_existing_eq. simpl. rewrite Hm.
  unfold call_value, ret, throw.
  destruct (FS_unlink m) as [|b|u]; simpl;
    destruct (snd (f _ _)); simpl; rewrite <- ?app_assoc; reflexivity.
Qed.

(** ** More on the filename *)

Lemma split_without_separator (sep : ascii) (s : string) :
  has_char sep s = false -> split sep s = [s].
Proof.
  induction s as [|c rest IH]; simpl; [reflexivity|].
  destruct (Ascii.eqb c sep); simpl; [discriminate|].
  intros H. rewrite (IH H). reflexivity.
Qed.

Lemma segments_without_separator (sep : ascii) (s : string) :
  Forall (fun seg => has_char sep seg = false) (split sep s).
Proof.
  induction s as [|c rest IH]; simpl.
  - constructor; [reflexivity|constructor].
  - destruct (Ascii.eqb c sep) eqn:E.
    + constructor; [reflexivity|exact IH].
    + destruct (split sep rest) as [|seg segs].
      * constructor; [simpl; rewrite E; reflexivity|constructor].
      * inversion IH as [|x l Hseg Hsegs]; subst.
        constructor; [simpl; rewrite E; exact Hseg|exact Hsegs].
Qed.

Lemma split_single (sep : ascii) (s seg : string) :
  split sep s = [seg] -> has_char sep s = false.
Proof.
  revert seg. induction s as [|d r IH]; simpl; intros seg Hs; [reflexivity|].
  destruct (Ascii.eqb d sep); simpl.
  - inversion Hs as [[H1 H2]]. elim (split_not_nil sep r H2).
  - destruct (split sep r) as [|sg sgs] eqn:Hr.
    + elim (split_not_nil sep r Hr).
    + inversion Hs; subst. apply (IH sg). reflexivity.
Qed.

Lemma last_split_step (sep c : ascii) (rest : string) :
  last (split sep (String c rest)) EmptyString
  = if Ascii.eqb c sep || has_char sep rest
    then last (split sep rest) EmptyString
    else String c rest.
Proof.
  cbn [split]. destruct (Ascii.eqb c sep) eqn:E; simpl.
  - pose proof (split_not_nil sep rest) as Hn.
    destruct (split sep rest); [contradiction|reflexivity].
  - destruct (has_char sep rest) eqn:Hc.
    + destruct (split sep rest) as [|seg [|s2 segs]] eqn:Hs.
      * elim (split_not_nil sep rest Hs).
      * apply split_single in Hs. congruence.
      * reflexivity.
    + rewrite (split_without_separator sep rest Hc). reflexivity.
Qed.

(** [split] loses nothing: joining its segments with the separator gives
    the string back. *)
Lemma join_split (sep : ascii) (s : string) :
  join sep (split sep s) = s.
Proof.
  induction s as [|c rest IH]; cbn [split]; [reflexivity|].
  destruct (Ascii.eqb_spec c sep) as [->|Hne].
  - pose proof (split_not_nil sep rest) as Hn.
    destruct (split sep rest) as [|seg segs] eqn:Hs; [contradiction|].
    change (join sep (EmptyString :: seg :: segs))
      with (String sep (join sep (seg :: segs))).
    rewrite IH. reflexivity.
  - destruct (split sep rest) as [|seg [|s2 segs]] eqn:Hs.
    + elim (split_not_nil sep rest Hs).
    + simpl in *. rewrite IH. reflexivity.
    + change (join sep (String c seg :: s2 :: segs))
        with (String c (join sep (seg :: s2 :: segs))).
      rewrite IH. reflexivity.
Qed.

(** X4.  For a name without a slash, the filename derived from
    [dir/name] is [name], whatever the directory part; and a reference
    without any slash is its own filename. *)
Theorem filename_of_path (dir name : string) :
  has_char "/" name = false ->
  filename_of (dir ++ String "/" name) = name /\
  filename_of name = name.
Proof.
  intros Hn. unfold filename_of.
  assert (Hname : last (split "/" name) EmptyString = name).
  { rewrite (split_without_separator "/" name Hn). reflexivity. }
  split; [|exact Hname].
  induction dir as [|c d IH].
  - change (EmptyString ++ String "/" name)%string with (String "/" name).
    rewrite last_split_step. simpl. exact Hname.
  - change (String c d ++ String "/" name)%string
      with (String c (d ++ String "/" name)).
    rewrite last_split_step.
    assert (Hc : has_char "/" (d ++ String "/" name) = true).
    { clear. induction d as [|x d IH].
      - reflexivity.
      - change (String x d ++ String "/" name)%string
          with (String x (d ++ String "/" name)).
        simpl. rewrite IH. apply orb_true_r. }
    rewrite Hc, orb_true_r. exact IH.
Qed.

(** X5.  The derived filename never contains a slash, so the path the
    mounter and the launcher build from it, ['/' + filename], has exactly
    the two segments [''] and the filename: it has one slash, the leading
    one, and no directory part.  Its second segment is empty, the path
    being the bare ['/'], exactly when the reference is empty or ends in
    a slash; nothing is said on whether the segment names a file. *)
Theorem mount_path_is_flat (url : string) :
  has_char "/" (filename_of url) = false /\
  split "/" (String "/" (filename_of url)) = [EmptyString; filename_of url] /\
  (String "/" (filename_of url) = "/"%string
   <-> url = EmptyString \/ ends_with "/" url = true).
Proof.
  assert (E : String "/" (filename_of url) = "/"%string
              <-> url = EmptyString \/ ends_with "/" url = true).
  { unfold filename_of. rewrite <- last_split_empty.
    split; intros K; [injection K as K; exact K | rewrite K; reflexivity]. }
  cut (has_char "/" (filename_of url) = false /\
       split "/" (String "/" (filename_of url))
       = [EmptyString; filename_of url]); [tauto|].
  assert (H : has_char "/" (filename_of url) = false).
  { unfold filename_of.
    pose proof (segments_without_separator "/" url) as F.
    pose proof (split_not_nil "/" url) as Hn.
    rewrite Forall_forall in F. apply F.
    destruct (split "/" url) as [|seg segs]; [contradiction|].
    apply (@exists_last _ (seg :: segs)) in Hn.
    destruct Hn as [l' [a Hl]]. rewrite Hl, last_last.
    apply in_or_app. right. left. reflexivity. }
  split; [exact H|].
  cbn [split]. simpl Ascii.eqb.
  rewrite (split_without_separator "/" _ H). reflexivity.
Qed.

(** ** More on the launcher and the state controller *)


(** ** The status line and the console *)

Lemma last_status_app initial (c : list centry) (e : centry) :
  last_status initial (c ++ [e])
  = match e with
    | ConsoleLog tag text =>
        if (tag =? "[N64]")%string then text else last_status initial c
    | _ => last_status initial c
    end.
Proof.
  unfold last_status. rewrite fold_left_app. simpl.
  destruct e; reflexivity.
Qed.

Section Mirrors.

Variable initial : string.

Let P := mirrors (St:=St) initial.

Lemma mirrors_setStatus s : preserves P (setStatus s).
Proof.
  intros w _. unfold P, mirrors, setStatus, log, bind, modify. simpl.
  rewrite last_status_app. reflexivity.
Qed.

Lemma mirrors_warn t : preserves P (log (ConsoleWarn t)).
Proof.
  intros w H. unfold P, mirrors, log, modify in *. simpl.
  rewrite last_status_app. exact H.
Qed.

Lemma mirrors_error l e : preserves P (log (ConsoleError l e)).
Proof.
  intros w H. unfold P, mirrors, log, modify in *. simpl.
  rewrite last_status_app. exact H.
Qed.

Lemma mirrors_silent (g : World St -> World St) :
  (forall w, statusText (g w) = statusText w /\ console (g w) = console w) ->
  preserves P (modify g).
Proof.
  intros Hg. apply preserves_modify. intros w H.
  unfold P, mirrors in *. destruct (Hg w) as [H1 H2]. rewrite H1, H2. exact H.
Qed.

Lemma mirrors_module_object : preserves P (module_object engine_text).
Proof.
  intros w H. unfold module_object. destruct (window_Module w); exact H.
Qed.

Lemma mirrors_call_value t v args :
  preserves P (call_value engine_text t v args).
Proof.
  intros w H. unfold call_value. destruct v as [|b|f]; simpl; try exact H.
  destruct (snd (f args (mstate w))); exact H.
Qed.

Local Ltac mirror :=
  repeat first
    [ apply preserves_ret
    | apply preserves_throw
    | apply preserves_get
    | apply preserves_text_of
    | apply mirrors_setStatus
    | apply mirrors_warn
    | apply mirrors_error
    | apply mirrors_module_object
    | apply mirrors_call_value
    | apply mirrors_silent; intros; split; reflexivity
    | apply preserves_bind; [|intros]
    | apply preserves_try_catch; [|intros]
    | match goal with
      | |- preserves _ (if ?b then _ else _) => destruct b
      | |- preserves _ (match ?x with _ => _ end) => destruct x
      end ].

Lemma mirrors_callback_begin cb : preserves P (callback_begin cb).
Proof. unfold callback_begin, mountRomToFS_begin. mirror. Qed.

Lemma mirrors_callback_resume cb r :
  preserves P (callback_resume engine_text cb r).
Proof.
  unfold callback_resume, mountRomToFS_resume, remove_existing, startEmulator.
  mirror.
Qed.

Lemma mirrors_invoke_ready s : preserves P (invoke_ready engine_text s).
Proof.
  induction s as [v|prev IH cb]; simpl.
  - apply mirrors_call_value.
  - apply preserves_bind.
    + apply preserves_try_catch; [exact IH|]. intros; apply preserves_ret.
    + intros _. apply mirrors_callback_begin.
Qed.

Lemma mirrors_run_task (c : M (World St) unit) w :
  preserves P c -> P w -> P (run_task c w).
Proof.
  intros Hc H. unfold run_task. specialize (Hc w H).
  destruct (c w) as [w1 [a|e]]; simpl in *; exact Hc.
Qed.

Lemma mirrors_step ev w : P w -> P (step engine_text ev w).
Proof.
  intros H. destruct ev as [url| | |id| |i r|b]; simpl.
  - apply mirrors_run_task; [|exact H].
    unfold loadAndStartRom, whenModuleReady, add_timer. mirror.
  - apply mirrors_run_task; [|exact H]. unfold saveState. mirror.
  - apply mirrors_run_task; [|exact H]. unfold loadState. mirror.
  - destruct (find _ (timers w)) as [[tid d [cb|cb]]|]; [| |exact H].
    + apply mirrors_run_task; [|exact H].
      apply preserves_bind; [unfold clear_timer; mirror|].
      intros _. apply mirrors_callback_begin.
    + apply mirrors_run_task; [|exact H].
      unfold poll_tick, clear_timer, add_timer. mirror.
  - destruct (window_Module w) as [| |m]; try exact H.
    destruct (slot_truthy _); [|exact H].
    apply mirrors_run_task; [|exact H]. apply mirrors_invoke_ready.
  - destruct (nth_error _ i) as [cb|]; [|exact H].
    apply mirrors_run_task; [apply mirrors_callback_resume|exact H].
  - exact H.
Qed.

End Mirrors.

(** X7.  The status line and the console never part: whatever happens on
    the page (loads, clicks, timers, the runtime's call, downloads
    settling, [Module] appearing), the status element shows the text of
    the last [console.log('[N64]', ...)], or what it showed at first when
    there has been none. *)
Theorem status_mirrors_console initial evs w :
  mirrors initial w -> mirrors initial (run engine_text evs w).
Proof.
  revert w. induction evs as [|ev evs IH]; intros w H; simpl.
  - exact H.
  - apply IH, mirrors_step, H.
Qed.

(** ** More on the gate *)

(** X8.  The poll has no timeout: as long as the module has not shown
    itself (no module object, or one with neither an
    [onRuntimeInitialized] slot nor [_main]), a tick of the polling
    interval changes nothing, however many times it fires; the interval
    stays armed and the callback is not entered. *)
Theorem poll_waits_forever w id d cb n :
  module_not_ready w = true ->
  find (fun t => Nat.eqb (t_id t) id) (timers w) = Some (Timer id d (Poll cb)) ->
  run engine_text (repeat (TimerFires id) n) w = w.
Proof.
  intros Hn Hf.
  assert (H1 : step engine_text (TimerFires id) w = w).
  { simpl. rewrite Hf. unfold run_task, poll_tick, bind, get, ret.
    unfold module_not_ready in Hn.
    destruct (window_Module w) as [| |m]; try reflexivity.
    apply negb_true_iff in Hn. rewrite Hn. reflexivity. }
  unfold run. induction n as [|n IH]; [reflexivity|].
  cbn [repeat fold_left]. rewrite H1. exact IH.
Qed.

(** X9.  The tick that finds the module (its slot set, or [_main]
    there) clears the polling interval for good and arms one 10 ms
    one-shot timer; when that fires the callback is entered.  The slot is
    not wrapped: a gate call that went polling does not wait for the
    runtime's call, even when the slot is all the module shows. *)
Theorem poll_hands_over w id d cb m :
  window_Module w = Object m ->
  slot_truthy (onRuntimeInitialized m) || truthy (_main m) = true ->
  timers_fresh w = true ->
  find (fun t => Nat.eqb (t_id t) id) (timers w) = Some (Timer id d (Poll cb)) ->
  let w' := step engine_text (TimerFires id) w in
  timers w'
  = filter (fun t => negb (Nat.eqb (t_id t) id)) (timers w)
    ++ [Timer (next_timer w) 10 (OneShot cb)] /\
  find (fun t => Nat.eqb (t_id t) id) (timers w') = None /\
  window_Module w' = Object m /\
  signalled cb (step engine_text (TimerFires (next_timer w)) w') = true.
Proof.
  intros Hm Hready Hfresh Hfind w'.
  assert (Hw' : w' = fst (add_timer (OneShot cb) 10 (fst (clear_timer id w)))).
  { subst w'. simpl. rewrite Hfind.
    unfold run_task, poll_tick, bind, get, ret, clear_timer, add_timer, modify.
    simpl. rewrite Hm, Hready. reflexivity. }
  assert (Hid : (id < next_timer w)%nat).
  { apply find_some in Hfind. destruct Hfind as [Hin He].
    unfold timers_fresh in Hfresh. rewrite forallb_forall in Hfresh.
    specialize (Hfresh _ Hin). simpl in *. apply Nat.ltb_lt in Hfresh.
    exact Hfresh. }
  split; [rewrite Hw'; reflexivity|]. split; [|split].
  - rewrite Hw'. simpl.
    assert (G : forall l,
              find (fun t => Nat.eqb (t_id t) id)
                (filter (fun t => negb (Nat.eqb (t_id t) id)) l
                 ++ [Timer (next_timer w) 10 (OneShot cb)]) = None).
    { induction l as [|t l IH]; simpl.
      - destruct (Nat.eqb_spec (next_timer w) id); [lia|reflexivity].
      - destruct (Nat.eqb (t_id t) id) eqn:E; simpl; [exact IH|].
        rewrite E. exact IH. }
    apply G.
  - rewrite Hw'. simpl. exact Hm.
  - rewrite Hw'.
    apply (@fired_timer_signals (fst (clear_timer id w)) cb 10).
    apply fresh_clear_timer. exact Hfresh.
Qed.

Lemma run_app (l1 l2 : list (event St)) w :
  run engine_text (l1 ++ l2) w = run engine_text l2 (run engine_text l1 w).
Proof. unfold run. apply fold_left_app. Qed.

Lemma chained_snoc (s : ready_slot St) cbs cb :
  chained s (cbs ++ [cb]) = SlotChained (chained s cbs) cb.
Proof. unfold chained. rewrite fold_left_app. reflexivity. Qed.

Lemma chained_truthy (s : ready_slot St) cbs :
  slot_truthy s = true -> slot_truthy (chained s cbs) = true.
Proof.
  intros H. destruct cbs as [|cb cbs] using rev_ind; [exact H|].
  rewrite chained_snoc. reflexivity.
Qed.

(** Loads made while something sits in the slot only pile up in it. *)
Lemma loads_queue_on_slot urls w m :
  window_Module w = Object m ->
  slot_truthy (onRuntimeInitialized m) = true ->
  run engine_text (map (@LoadRom St) urls) w
  = with_Module
      (Object (with_onRuntimeInitialized
                 (chained (onRuntimeInitialized m)
                    (map pipeline_callback urls)) m)) w.
Proof.
  revert w m. induction urls as [|u urls IH]; intros w m Hm Hs.
  - simpl. destruct w; destruct m; simpl in *. subst. reflexivity.
  - change (run engine_text (map (@LoadRom St) (u :: urls)) w)
      with (run engine_text (map (@LoadRom St) urls)
              (step engine_text (LoadRom u) w)).
    rewrite step_LoadRom, (@gate_chains w m _ Hm Hs). cbn [fst].
    rewrite (IH _ (with_onRuntimeInitialized
                     (SlotChained (onRuntimeInitialized m)
                        (Callback u (filename_of u))) m));
      [reflexivity | reflexivity | reflexivity].
Qed.

(** Calling the slot enters the chained callbacks, oldest first, after
    whatever was in the slot before, and cannot throw once a callback is
    chained. *)
Lemma invoke_chained (s : ready_slot St) cbs w :
  let r := invoke_ready engine_text (chained s cbs) w in
  let w0 := fst (invoke_ready engine_text s w) in
  (cbs <> [] -> snd r = Normal tt) /\
  calls (fst r) = calls w0 ++ requests cbs /\
  fetching (fst r) = fetching w0 ++ cbs /\
  uncaught (fst r) = uncaught w0 /\
  timers (fst r) = timers w0.
Proof.
  cbv zeta. induction cbs as [|cb cbs IH] using rev_ind.
  - simpl. unfold requests. simpl. rewrite !app_nil_r.
    split; [intros H; contradiction|]. repeat split.
  - rewrite chained_snoc. destruct IH as [_ [Hc [Hf [Hu Ht]]]].
    cbn [invoke_ready]. unfold bind, try_catch, callback_begin,
      mountRomToFS_begin, setStatus, log, modify, ret.
    destruct (invoke_ready engine_text (chained s cbs) w) as [w1 [[]|e]];
      simpl in *; unfold requests; rewrite map_app; simpl;
      rewrite Hc, Hf, Hu, Ht, <- !app_assoc; repeat split.
Qed.

(** X10.  Loads requested while the page's own [onRuntimeInitialized]
    callback is still in the slot are all kept: when the runtime calls the
    slot, that callback runs first, once, and then every queued load is
    entered, in the order the loads were made.  If the page's callback
    throws, the error is swallowed and the loads are entered all the
    same. *)
Theorem queued_loads_run_in_order w m v urls :
  window_Module w = Object m ->
  onRuntimeInitialized m = SlotVal v ->
  truthy v = true ->
  urls <> [] ->
  let w' := run engine_text
              (map (@LoadRom St) urls ++ [RuntimeInitialized]) w in
  calls w'
  = calls w
    ++ (if is_function v then [Call TonRuntimeInitialized []] else [])
    ++ requests (map pipeline_callback urls) /\
  fetching w' = fetching w ++ map pipeline_callback urls /\
  uncaught w' = uncaught w /\
  timers w' = timers w.
Proof.
  intros Hm Hv Ht Hne w'. subst w'. rewrite run_app.
  assert (Hs : slot_truthy (onRuntimeInitialized m) = true)
    by (rewrite Hv; exact Ht).
  rewrite (@loads_queue_on_slot urls w m Hm Hs). rewrite Hv.
  set (cbs := map pipeline_callback urls).
  assert (Hcbs : cbs <> []).
  { subst cbs. destruct urls; [contradiction|discriminate]. }
  unfold run. cbn [fold_left step window_Module with_Module
                   onRuntimeInitialized with_onRuntimeInitialized].
  rewrite chained_truthy by exact Ht.
  set (w1 := with_Module _ w).
  pose proof (invoke_chained (SlotVal v) cbs w1) as H. cbv zeta in H.
  destruct H as [Hn [Hc [Hf [Hu Hti]]]]. specialize (Hn Hcbs).
  unfold run_task.
  destruct (invoke_ready engine_text (chained (SlotVal v) cbs) w1)
    as [w2 [[]|e]] eqn:E; simpl in Hn; [|discriminate].
  simpl in Hc, Hf, Hu, Hti. cbn [fst]. rewrite Hc, Hf, Hu, Hti.
  unfold call_value. subst w1.
  destruct v as [|b|g]; simpl;
    try (destruct (snd (g _ _))); simpl;
    rewrite <- ?app_assoc; repeat split.
Qed.

(** X11.  On a page that is already initialised, every load arms a
    timer of its own: nothing is merged or dropped, also when the same
    ROM is asked for again while an earlier load is still waiting. *)
Theorem loads_accumulate urls w :
  settled w ->
  run engine_text (map (@LoadRom St) urls) w
  = with_timers
      (timers w ++ armed (next_timer w) (map pipeline_callback urls))
      (next_timer w + length urls) w.
Proof.
  revert w. induction urls as [|u urls IH]; intros w Hs.
  - simpl. rewrite app_nil_r, Nat.add_0_r. destruct w; reflexivity.
  - change (run engine_text (map (@LoadRom St) (u :: urls)) w)
      with (run engine_text (map (@LoadRom St) urls)
              (step engine_text (LoadRom u) w)).
    destruct Hs as [m [Hm He]].
    rewrite step_LoadRom, (@gate_arms_timer w m _ Hm He). cbn [fst].
    rewrite IH by (exists m; split; [exact Hm|exact He]).
    simpl. rewrite <- app_assoc, Nat.add_succ_r. reflexivity.
Qed.





(** ** The pipeline, end to end *)




(** The calls of the mounter's second half are never launches; when it
    resolves, it resolves to the name it was given and its last call was
    the injection under that name. *)
Lemma mount_resume_outcome r filename w :
  exists l,
    calls (fst (mountRomToFS_resume engine_text r filename w)) = calls w ++ l /\
    Forall (fun c => is_launch (c_target c) = false) l /\
    (forall v,
       snd (mountRomToFS_resume engine_text r filename w) = Normal v ->
       v = filename /\
       exists status u8 pre,
         r = Response true status (inr u8) /\
         l = pre ++ [Call TFS_createDataFile (inject_args filename u8)]).
Proof.
  unfold mountRomToFS_resume, bind, try_catch, get, throw, ret.
  destruct r as [e|ok status [e|u8]]; simpl;
    try (exists []; rewrite app_nil_r; split; [reflexivity|];
         split; [constructor|discriminate]);
    destruct ok; simpl;
    try (exists []; rewrite app_nil_r; split; [reflexivity|];
         split; [constructor|discriminate]).
  destruct (window_Module w) as [| |m] eqn:Hm; simpl;
    try (exists []; rewrite app_nil_r; split; [reflexivity|];
         split; [constructor|discriminate]).
  destruct (FS_createDataFile m) as [|b'|f] eqn:Hf; simpl;
    try (exists []; rewrite app_nil_r; split; [reflexivity|];
         split; [constructor|discriminate]).
  - destruct b'; simpl;
      try (exists []; rewrite app_nil_r; split; [reflexivity|];
           split; [constructor|discriminate]).
    rewrite remove_existing_eq, Hm.
    unfold call_value, setStatus, log, modify, bind.
    destruct (FS_unlink m) as [|b|u]; simpl;
      try (exists []; rewrite app_nil_r; split; [reflexivity|];
           split; [constructor|discriminate]).
    eexists. split; [reflexivity|]. split; [repeat constructor|discriminate].
  - rewrite remove_existing_eq, Hm.
    unfold call_value, setStatus, log, modify, bind.
    destruct (FS_unlink m) as [|b|u]; simpl;
      destruct (snd (f _ _)); simpl;
      match goal with
      | |- exists l, (?a ++ ?x) ++ ?y = ?a ++ l /\ _ =>
          exists (x ++ y); split; [symmetry; apply app_assoc|]
      | |- exists l, ?a ++ ?x = ?a ++ l /\ _ =>
          exists x; split; [reflexivity|]
      end;
      (split; [repeat constructor|]);
      intros v Hv; inversion Hv; subst; (split; [reflexivity|]);
      exists status, u8;
      first [ exists (@nil call); split; reflexivity
            | eexists [_]; split; reflexivity ].
Qed.

(** The launcher makes at most one call, to a launch candidate, with the
    absolute path. *)
Lemma launch_calls filename w :
  exists l,
    calls (fst (startEmulator engine_text filename w)) = calls w ++ l /\
    (l = [] \/
     l = [Call Twindow_startEmulator [AStr ("/" ++ filename)%string]] \/
     l = [Call TcallMain [AList [("/" ++ filename)%string]]] \/
     l = [Call Twindow_run [AStr ("/" ++ filename)%string]]).
Proof.
  unfold_js. simpl.
  destruct (window_startEmulator w) as [|b|g]; simpl;
    try solve [destruct (snd (g _ _)); simpl; try destruct (message_or_self _);
               eexists; (split; [reflexivity|]); auto];
    (destruct (window_Module w) as [| |m]; simpl;
     try solve [try destruct (String.eqb _ _);
                exists []; rewrite app_nil_r; (split; [reflexivity|]); auto];
     destruct (callMain m) as [|b'|g]; simpl;
     try solve [destruct (snd (g _ _)); simpl; try destruct (message_or_self _);
                eexists; (split; [reflexivity|]); auto 6];
     destruct (window_run w) as [|b''|h]; simpl;
     try solve [exists []; rewrite app_nil_r; (split; [reflexivity|]); auto];
     destruct (snd (h _ _)); simpl; try destruct (message_or_self _);
     eexists; (split; [reflexivity|]); auto 6).
Qed.

(** X14.  The callback never launches what it has not mounted: among the
    calls it makes once the download has settled, a call to a launch
    candidate occurs only after a successful response, comes directly
    after the injection of the payload under the callback's filename, is
    the last call, and carries the path ['/' + filename] of that file. *)
Theorem launch_follows_injection cb r w :
  exists l,
    calls (fst (callback_resume engine_text cb r w)) = calls w ++ l /\
    forall c,
      In c l ->
      is_launch (c_target c) = true ->
      exists status u8 pre,
        r = Response true status (inr u8) /\
        l = pre ++ [Call TFS_createDataFile
                      (inject_args (cb_filename cb) u8); c] /\
        (c_args c = [AStr ("/" ++ cb_filename cb)%string] \/
         c_args c = [AList [("/" ++ cb_filename cb)%string]]).
Proof.
  destruct (mount_resume_outcome r (cb_filename cb) w) as [l1 [Hc [Hnl Hres]]].
  unfold callback_resume, bind.
  destruct (mountRomToFS_resume engine_text r (cb_filename cb) w)
    as [w1 [v|e]] eqn:E; simpl in Hc, Hres.
  - destruct (Hres v eq_refl) as [Hv [status [u8 [pre [Hr Hl]]]]]. subst v.
    destruct (launch_calls (cb_filename cb) w1) as [l2 [Hc2 Hl2]].
    exists (l1 ++ l2). split; [rewrite Hc2, Hc, app_assoc; reflexivity|].
    intros c Hin Hlaunch. apply in_app_or in Hin. destruct Hin as [Hin|Hin].
    + rewrite Forall_forall in Hnl. rewrite (Hnl c Hin) in Hlaunch.
      discriminate.
    + exists status, u8, pre. split; [exact Hr|].
      rewrite Hl, <- app_assoc.
      destruct Hl2 as [H2|[H2|[H2|H2]]]; rewrite H2 in Hin |- *;
        simpl in Hin; try contradiction;
        destruct Hin as [Hin|Hin]; try contradiction; subst c; simpl; auto.
  - exists l1. split; [exact Hc|].
    intros c Hin Hlaunch. rewrite Forall_forall in Hnl.
    rewrite (Hnl c Hin) in Hlaunch. discriminate.
Qed.


(** ** The layout button *)

Lemma toggle_membership (c d : string) (classes : list string) :
  In d (toggle c classes)
  <-> (d = c /\ ~ In c classes) \/ (d <> c /\ In d classes).
Proof.
  unfold toggle. destruct (existsb (String.eqb c) classes) eqn:E.
  - apply existsb_exists in E. destruct E as [x [Hx Hcx]].
    apply String.eqb_eq in Hcx. subst x.
    rewrite filter_In, negb_true_iff, String.eqb_neq. split.
    + intros [H1 H2]. right. split; assumption.
    + intros [[-> H]|[H1 H2]]; [contradiction|split; assumption].
  - assert (Hn : ~ In c classes).
    { intros Hin. assert (existsb (String.eqb c) classes = true).
      { apply existsb_exists. exists c. split; [exact Hin|apply String.eqb_refl]. }
      congruence. }
    rewrite in_app_iff. simpl. split.
    + intros [H|[H|[]]].
      * right. split; [|exact H]. intros ->. contradiction.
      * left. split; [symmetry; exact H|exact Hn].
    + intros [[-> _]|[_ H]]; [right; left; reflexivity|left; exact H].
Qed.

(** X16.  A click on the layout button flips whether the body has the
    class [mobile-mode] and changes no other class; it keeps the class
    list free of repeats; and a second click brings back the classes the
    body had. *)
Theorem mobile_click_flips classes :
  NoDup classes ->
  NoDup (on_mobile_click classes) /\
  (In "mobile-mode"%string (on_mobile_click classes)
   <-> ~ In "mobile-mode"%string classes) /\
  (forall d, d <> "mobile-mode"%string ->
             (In d (on_mobile_click classes) <-> In d classes)) /\
  (forall d, In d (on_mobile_click (on_mobile_click classes))
             <-> In d classes).
Proof.
  intros Hnd. unfold on_mobile_click.
  set (c := "mobile-mode"%string).
  assert (Hdec : forall d : string, d = c \/ d <> c).
  { intros d. destruct (String.eqb_spec d c); auto. }
  assert (Hin : In c classes \/ ~ In c classes).
  { destruct (existsb (String.eqb c) classes) eqn:E.
    - left. apply existsb_exists in E. destruct E as [x [Hx Hcx]].
      apply String.eqb_eq in Hcx. subst x. exact Hx.
    - right. intros H. assert (existsb (String.eqb c) classes = true).
      { apply existsb_exists. exists c. split; [exact H|apply String.eqb_refl]. }
      congruence. }
  split; [|split; [|split]].
  - unfold toggle. destruct (existsb (String.eqb c) classes) eqn:E.
    + apply NoDup_filter, Hnd.
    + apply NoDup_app; [exact Hnd|repeat constructor; intros []|].
      intros x Hx [Hc|[]]. subst x.
      assert (existsb (String.eqb c) classes = true).
      { apply existsb_exists. exists c. split; [exact Hx|apply String.eqb_refl]. }
      congruence.
  - rewrite toggle_membership. split.
    + intros [[_ H]|[H _]]; [exact H|congruence].
    + intros H. left. split; [reflexivity|exact H].
  - intros d Hd. rewrite toggle_membership. split.
    + intros [[H _]|[_ H]]; [contradiction|exact H].
    + intros H. right. split; assumption.
  - intros d. rewrite !toggle_membership. destruct (Hdec d) as [->|Hd].
    + split.
      * intros [[_ H]|[H _]]; [|congruence].
        destruct Hin as [Hi|Hi]; [exact Hi|].
        exfalso. apply H. left. split; [reflexivity|exact Hi].
      * intros H. left. split; [reflexivity|].
        intros [[_ H1]|[H1 _]]; [contradiction|congruence].
    + split.
      * intros [[H _]|[_ [[H _]|[_ H]]]]; try contradiction. exact H.
      * intros H. right. split; [exact Hd|]. right. split; assumption.
Qed.

(** ** What a load does at once *)

(** X17.  [loadAndStartRom] itself only registers its callback, in exactly
    one place: wrapped onto the module's slot when something is in it,
    else on a 50 ms one-shot timer when [_main] is there, else on a 50 ms
    polling interval (also when there is no module object).  By the time
    it returns it has shown no status, logged nothing, called nothing and
    sent no request, and nothing is unhandled. *)
Theorem load_only_registers url w :
  let cb := pipeline_callback url in
  let w' := step engine_text (LoadRom url) w in
  statusText w' = statusText w /\
  console w' = console w /\
  calls w' = calls w /\
  mstate w' = mstate w /\
  fetching w' = fetching w /\
  uncaught w' = uncaught w /\
  match window_Module w with
  | Object m =>
      if slot_truthy (onRuntimeInitialized m) then
        timers w' = timers w /\
        window_Module w'
        = Object (with_onRuntimeInitialized
                    (SlotChained (onRuntimeInitialized m) cb) m)
      else
        window_Module w' = window_Module w /\
        timers w'
        = timers w
          ++ [Timer (next_timer w) 50
                (if truthy (_main m) then OneShot cb else Poll cb)]
  | _ =>
      window_Module w' = window_Module w /\
      timers w' = timers w ++ [Timer (next_timer w) 50 (Poll cb)]
  end.
Proof.
  cbv zeta. rewrite step_LoadRom.
  unfold whenModuleReady, pipeline_callback, bind, get, add_timer, modify.
  simpl.
  destruct (window_Module w) as [| |m] eqn:Hm; simpl;
    try (repeat split; assumption).
  destruct (slot_truthy (onRuntimeInitialized m)); simpl;
    [repeat split|].
  destruct (truthy (_main m)); simpl; repeat split; assumption.
Qed.

End Properties.

(** * The properties on the sample page *)

Local Open Scope list_scope.

Lemma mount_resolves_to_filename_witness :
  (window_Module (page (Object demo_module)) = Object demo_module /\
   FS_createDataFile demo_module = VFun demo_createDataFile /\
   snd (demo_createDataFile (inject_args "mario64.z64" rom_bytes)
          (mstate (fst (remove_existing v8_text "mario64.z64"
                          (page (Object demo_module)))))) = None) /\
  let r := mountRomToFS v8_text "roms/mario64.z64"
             (filename_of "roms/mario64.z64")
             (Response true 200 (inr rom_bytes))
             (page (Object demo_module)) in
  snd r = Normal "mario64.z64"%string /\
  invocations TFS_createDataFile (calls (fst r))
  = invocations TFS_createDataFile (calls (page (Object demo_module)))
    ++ [Call TFS_createDataFile
          [AStr "/"; AStr "mario64.z64"; ABytes rom_bytes;
           ABool true; ABool true]] /\
  statusText (fst r) = ("ROM mounted: " ++ "mario64.z64")%string.
Proof.
  split; [repeat split|].
  exact (@mount_resolves_to_filename files v8_text
           (page (Object demo_module)) "roms/mario64.z64" "mario64.z64"
           200 rom_bytes demo_module demo_createDataFile
           eq_refl eq_refl eq_refl).
Defined.

Lemma start_calls_first_candidate_witness :
  (window_Module (page (Object demo_module)) = Object demo_module /\
   is_function (window_startEmulator (page (Object demo_module))) = false /\
   is_function (callMain demo_module) = true /\
   is_function (window_run (page (Object demo_module))) = false) /\
  calls (fst (startEmulator v8_text "game.z64" (page (Object demo_module))))
  = calls (page (Object demo_module))
    ++ [Call TcallMain [AList ["/game.z64"%string]]].
Proof.
  split; [repeat split|].
  exact (proj2 (@start_calls_first_candidate files v8_text
                  (page (Object demo_module)) "game.z64")
           demo_module eq_refl eq_refl eq_refl eq_refl).
Defined.

Lemma start_without_candidates_witness :
  (window_Module (page (Object demo_module_no_launch))
   = Object demo_module_no_launch /\
   is_function (window_startEmulator (page (Object demo_module_no_launch)))
   = false /\
   is_function (callMain demo_module_no_launch) = false /\
   is_function (window_run (page (Object demo_module_no_launch))) = false) /\
  startEmulator v8_text "game.z64" (page (Object demo_module_no_launch))
  = (with_console
       (console (page (Object demo_module_no_launch)) ++
        [ConsoleLog "[N64]" ("Starting emulator: " ++ "game.z64");
         ConsoleWarn "No obvious start function found — you may need to adapt startEmulator() in script.js";
         ConsoleLog "[N64]" "Emulator start function not found"])
       (with_status "Emulator start function not found"
          (page (Object demo_module_no_launch))),
     Normal tt).
Proof.
  split; [repeat split|].
  exact (@start_without_candidates files v8_text
           (page (Object demo_module_no_launch)) demo_module_no_launch
           "game.z64" eq_refl eq_refl eq_refl eq_refl).
Defined.

Lemma state_transfer_prefers_module_witness :
  window_Module page_with_both = Object demo_module_with_state /\
  calls (fst (saveState v8_text page_with_both)) = [Call T_save_state []] /\
  calls (fst (loadState v8_text page_with_both)) = [Call T_load_state []].
Proof.
  split; [reflexivity|].
  pose proof (@state_transfer_prefers_module files v8_text page_with_both
                demo_module_with_state eq_refl) as H.
  split; [exact (proj1 (proj1 H)) | exact (proj1 (proj2 H))].
Defined.


Lemma state_transfer_without_module_witness :
  module_fault (page Undeclared) = Some ModuleUndeclared /\
  snd (saveState v8_text (page Undeclared)) = Normal tt /\
  statusText (fst (saveState v8_text (page Undeclared)))
  = "Save failed: Module is not defined"%string /\
  snd (loadState v8_text (page Undeclared)) = Normal tt /\
  statusText (fst (loadState v8_text (page Undeclared)))
  = "Load state failed: Module is not defined"%string.
Proof.
  split; [reflexivity|].
  pose proof (@state_transfer_without_module files v8_text (page Undeclared)
                ModuleUndeclared eq_refl) as H.
  split; [exact (proj1 (proj1 H))|].
  split; [exact (proj1 (proj2 (proj1 H)))|].
  split; [exact (proj1 (proj2 H))|].
  exact (proj1 (proj2 (proj2 H))).
Defined.

Lemma gate_monotonic_with_free_slot_witness :
  (slot_free (window_Module (page (Object demo_module_predeclared))) = true /\
   timers (page (Object demo_module_predeclared)) = [] /\
   calls (page (Object demo_module_predeclared)) = [] /\
   admissible_run v8_text module_filled_in_late
     (page (Object demo_module_predeclared)) = true /\
   signalled cb_a
     (run v8_text module_filled_in_late
        (page (Object demo_module_predeclared))) = true /\
   admissible_run v8_text then_replaced
     (run v8_text module_filled_in_late
        (page (Object demo_module_predeclared))) = true) /\
  let w := run v8_text then_replaced
             (run v8_text module_filled_in_late
                (page (Object demo_module_predeclared))) in
  let w' := fst (whenModuleReady cb_b w) in
  settled w /\
  whenModuleReady cb_b w
  = (with_timers (timers w ++ [Timer (next_timer w) 50 (OneShot cb_b)])
       (S (next_timer w)) w,
     Normal tt) /\
  polling_for cb_b w' = polling_for cb_b w /\
  awaits_runtime cb_b w' = false /\
  signalled cb_b (step v8_text (TimerFires (next_timer w)) w') = true.
Proof.
  split; [repeat split|].
  exact (@gate_monotonic_with_free_slot files v8_text
           (page (Object demo_module_predeclared))
           module_filled_in_late cb_a then_replaced cb_b
           eq_refl eq_refl eq_refl eq_refl eq_refl eq_refl).
Defined.

(** C2, the failing run.  The page has an initialised module; the ROM is
    requested, the gate's timer fires, and the server answers 404.  The
    mounter's rejection reaches nobody: it ends up unhandled, the status
    still reads "Fetching ROM: ..." (never "Error loading ROM: ..."), and
    the console has no [console.error] entry.  The same happens when the
    module lacks [FS_createDataFile]. *)
Theorem pipeline_drops_mount_rejection :
  let not_found :=
    run v8_text
      [LoadRom "roms/missing.z64"; TimerFires 0;
       FetchSettles 0 (Response false 404 (inr []))]
      (page (Object demo_module)) in
  let no_fs :=
    run v8_text
      [LoadRom "roms/mario64.z64"; TimerFires 0;
       FetchSettles 0 (Response true 200 (inr rom_bytes))]
      (page (Object
         (MkModule (SlotVal VUndefined) (VFun returns) VUndefined VUndefined
            (VFun returns) VUndefined VUndefined))) in
  (uncaught not_found = [ErrorObj "Error" "HTTP 404"] /\
   statusText not_found = "Fetching ROM: roms/missing.z64"%string /\
   console not_found
   = [ConsoleLog "[N64]" "Fetching ROM: roms/missing.z64"]) /\
  (uncaught no_fs
   = [ErrorObj "Error"
        "Emscripten FS not available (Module.FS_createDataFile missing)"] /\
   statusText no_fs = "Fetching ROM: roms/mario64.z64"%string /\
   console no_fs = [ConsoleLog "[N64]" "Fetching ROM: roms/mario64.z64"]).
Proof.
  vm_compute. repeat split.
Qed.

(** C5, as stated, fails.  The module announces itself through its
    [onRuntimeInitialized] slot.  A first load chains onto the slot; the
    runtime calls the slot and the first callback is entered: the gate has
    signalled ready.  A second load then chains onto the slot again: no
    timer is armed, its callback is not entered, and it sits in the slot
    waiting for the runtime to call it once more. *)
Lemma gate_waits_again_after_ready :
  let w1 :=
    run v8_text [LoadRom "roms/a.z64"; RuntimeInitialized]
      (page (Object demo_module_with_slot)) in
  let w2 := run v8_text [LoadRom "roms/b.z64"] w1 in
  signalled cb_a w1 = true /\
  signalled cb_b w2 = false /\
  timers w2 = [] /\
  awaits_runtime cb_b w2 = true /\
  signalled cb_b (run v8_text [RuntimeInitialized] w2) = true.
Proof.
  vm_compute. repeat split.
Qed.

(** Why [_main] has to stay.  The module is there and a first load is
    signalled ready; then [Module] is replaced by an object without
    [_main], with an empty slot.  The next load starts a polling interval
    and its callback is not entered when that timer fires. *)
Lemma gate_polls_again_without_main :
  let w1 :=
    run v8_text [LoadRom "roms/a.z64"; TimerFires 0]
      (page (Object demo_module)) in
  let w2 :=
    run v8_text
      [ScriptDefinesModule (Object demo_module_predeclared);
       LoadRom "roms/b.z64"] w1 in
  signalled cb_a w1 = true /\
  slot_free (window_Module w2) = true /\
  polling_for cb_b w2 = true /\
  signalled cb_b (run v8_text [TimerFires 1] w2) = false.
Proof.
  vm_compute. repeat split.
Qed.

(** C6, as stated, fails.  On a page without a [Module] binding whose
    author provides [save_state] and [load_state], only the page-level
    functions exist, yet neither is called: the probe of the module-level
    one raises first and the status reports the failure. *)
Lemma page_level_skipped_without_module :
  is_function (window_save_state page_level_only) = true /\
  is_function (window_load_state page_level_only) = true /\
  window_Module page_level_only = Undeclared /\
  calls (fst (saveState v8_text page_level_only)) = [] /\
  statusText (fst (saveState v8_text page_level_only))
  = "Save failed: Module is not defined"%string /\
  calls (fst (loadState v8_text page_level_only)) = [] /\
  statusText (fst (loadState v8_text page_level_only))
  = "Load state failed: Module is not defined"%string.
Proof.
  vm_compute. repeat split.
Qed.


(** C9, as stated, fails.  A selector value ending in a slash is handed
    to the pipeline as it is, and its last segment is empty. *)
Lemma trailing_slash_gives_empty_filename :
  selected_url "roms/" "roms/mario64.z64" = "roms/"%string /\
  filename_of (selected_url "roms/" "roms/mario64.z64") = EmptyString.
Proof.
  vm_compute. split; reflexivity.
Qed.

(** ** The further properties on the sample page *)

Lemma mount_rethrows_injection_failure_witness :
  let w := fst (mountRomToFS_begin "roms/mario64.z64"
                  (page (Object demo_module_full_disk))) in
  (window_Module w = Object demo_module_full_disk /\
   FS_createDataFile demo_module_full_disk
   = VFun (throws (ErrorObj "ErrnoError" "No space left"))) /\
  let r := mountRomToFS_resume v8_text (Response true 200 (inr rom_bytes))
             "mario64.z64" w in
  snd r = Throw (ErrorObj "ErrnoError" "No space left") /\
  statusText (fst r) = statusText w /\
  console (fst r)
  = console w ++ [ConsoleError None (ErrorObj "ErrnoError" "No space left")].
Proof.
  cbv zeta. split; [split; reflexivity|].
  pose proof (@mount_rethrows_injection_failure files v8_text
                (fst (mountRomToFS_begin "roms/mario64.z64"
                        (page (Object demo_module_full_disk))))
                "mario64.z64" 200 rom_bytes demo_module_full_disk
                (throws (ErrorObj "ErrnoError" "No space left"))
                (ErrorObj "ErrnoError" "No space left")
                eq_refl eq_refl eq_refl) as H.
  split; [exact (proj1 H)|].
  split; [exact (proj1 (proj2 H)) | exact (proj1 (proj2 (proj2 H)))].
Defined.

Lemma mount_stops_before_filesystem_witness :
  mountRomToFS v8_text "roms/mario64.z64" "mario64.z64"
    (Response true 200 (inr rom_bytes)) (page Undeclared)
  = (fst (mountRomToFS_begin "roms/mario64.z64" (page Undeclared)),
     Throw (ErrorObj "Error"
              "Emscripten FS not available (Module.FS_createDataFile missing)")).
Proof.
  exact (proj1 (proj2 (proj2
           (@mount_stops_before_filesystem files v8_text (page Undeclared)
              "roms/mario64.z64" "mario64.z64")))
           200 rom_bytes eq_refl).
Defined.

Lemma mount_call_order_witness :
  (window_Module (page (Object demo_module)) = Object demo_module /\
   FS_createDataFile demo_module = VFun demo_createDataFile) /\
  calls (fst (mountRomToFS v8_text "roms/mario64.z64" "mario64.z64"
                (Response true 200 (inr rom_bytes))
                (page (Object demo_module))))
  = [Call Tfetch [AStr "roms/mario64.z64"];
     Call TFS_unlink [AStr "/mario64.z64"];
     Call TFS_createDataFile
       [AStr "/"; AStr "mario64.z64"; ABytes rom_bytes; ABool true;
        ABool true]].
Proof.
  split; [split; reflexivity|].
  exact (@mount_call_order files v8_text (page (Object demo_module))
           "roms/mario64.z64" "mario64.z64" 200 rom_bytes demo_module
           demo_createDataFile eq_refl eq_refl).
Defined.

Lemma filename_of_path_witness :
  has_char "/" "mario64.z64" = false /\
  filename_of ("https://example.org/roms" ++ String "/" "mario64.z64")
  = "mario64.z64"%string /\
  filename_of "mario64.z64" = "mario64.z64"%string.
Proof.
  split; [reflexivity|].
  exact (@filename_of_path "https://example.org/roms" "mario64.z64" eq_refl).
Defined.

Lemma status_mirrors_console_witness :
  mirrors "" (page Undeclared) /\
  mirrors ""
    (run v8_text (module_arrives_late ++ then_played) (page Undeclared)).
Proof.
  split; [reflexivity|].
  exact (@status_mirrors_console files v8_text ""
           (module_arrives_late ++ then_played) (page Undeclared) eq_refl).
Defined.

Lemma poll_waits_forever_witness :
  (module_not_ready page_polling = true /\
   find (fun t => Nat.eqb (t_id t) 0) (timers page_polling)
   = Some (Timer 0 50 (Poll cb_a))) /\
  run v8_text (repeat (TimerFires 0) 3) page_polling = page_polling.
Proof.
  split; [split; reflexivity|].
  exact (@poll_waits_forever files v8_text page_polling 0 50 cb_a 3
           eq_refl eq_refl).
Defined.

Lemma poll_hands_over_witness :
  (window_Module page_polling_module_there = Object demo_module /\
   slot_truthy (onRuntimeInitialized demo_module) || truthy (_main demo_module)
   = true /\
   timers_fresh page_polling_module_there = true /\
   find (fun t => Nat.eqb (t_id t) 0) (timers page_polling_module_there)
   = Some (Timer 0 50 (Poll cb_a))) /\
  let w' := step v8_text (TimerFires 0) page_polling_module_there in
  timers w'
  = filter (fun t => negb (Nat.eqb (t_id t) 0))
      (timers page_polling_module_there)
    ++ [Timer (next_timer page_polling_module_there) 10 (OneShot cb_a)] /\
  find (fun t => Nat.eqb (t_id t) 0) (timers w') = None /\
  window_Module w' = Object demo_module /\
  signalled cb_a
    (step v8_text (TimerFires (next_timer page_polling_module_there)) w')
  = true.
Proof.
  split; [repeat split|].
  exact (@poll_hands_over files v8_text page_polling_module_there 0 50 cb_a
           demo_module eq_refl eq_refl eq_refl eq_refl).
Defined.

Lemma queued_loads_run_in_order_witness :
  (window_Module (page (Object demo_module_with_slot))
   = Object demo_module_with_slot /\
   onRuntimeInitialized demo_module_with_slot = SlotVal (VFun returns) /\
   truthy (VFun returns) = true /\
   ["roms/a.z64"; "roms/b.z64"]%string <> []) /\
  let w' := run v8_text
              (map LoadRom ["roms/a.z64"; "roms/b.z64"]%string
               ++ [RuntimeInitialized])
              (page (Object demo_module_with_slot)) in
  calls w'
  = [Call TonRuntimeInitialized []; Call Tfetch [AStr "roms/a.z64"];
     Call Tfetch [AStr "roms/b.z64"]] /\
  fetching w' = [cb_a; cb_b] /\
  uncaught w' = [] /\
  timers w' = [].
Proof.
  split; [repeat split; discriminate|].
  exact (@queued_loads_run_in_order files v8_text
           (page (Object demo_module_with_slot)) demo_module_with_slot
           (VFun returns) ["roms/a.z64"; "roms/b.z64"]%string
           eq_refl eq_refl eq_refl
           ltac:(discriminate)).
Defined.

Lemma loads_accumulate_witness :
  settled (page (Object demo_module)) /\
  run v8_text (map LoadRom ["roms/a.z64"; "roms/a.z64"]%string)
    (page (Object demo_module))
  = with_timers [Timer 0 50 (OneShot cb_a); Timer 1 50 (OneShot cb_a)] 2
      (page (Object demo_module)).
Proof.
  assert (H : settled (page (Object demo_module))).
  { exists demo_module. repeat split. }
  split; [exact H|].
  exact (@loads_accumulate files v8_text ["roms/a.z64"; "roms/a.z64"]%string
           (page (Object demo_module)) H).
Defined.




Lemma mobile_click_flips_witness :
  NoDup ["dark"%string] /\
  NoDup (on_mobile_click ["dark"%string]) /\
  (In "mobile-mode"%string (on_mobile_click ["dark"%string])
   <-> ~ In "mobile-mode"%string ["dark"%string]).
Proof.
  assert (H : NoDup ["dark"%string]).
  { constructor; [intros []|constructor]. }
  split; [exact H|].
  pose proof (@mobile_click_flips ["dark"%string] H) as G.
  split; [exact (proj1 G) | exact (proj1 (proj2 G))].
Defined.
